(** * notemyvoice: a shallow embedding of the note store, the list view and
      the editor

    The repository is a React application of three components:
    - [App] (src/App.tsx) owns the note collection and the selection, and
      persists the collection to [localStorage] after every change;
    - [NoteList] (src/components/NoteList.tsx) filters, sorts and exports;
    - [NoteEditor] (src/components/NoteEditor.tsx) edits one draft, formats
      its content and ingests speech transcripts.

    Component state ([useState]) is modelled by explicit state passing: every
    event handler is a function from the state it closes over to the state
    its setters install.  Platform services that the code calls but does not
    define (the clock, [crypto.randomUUID], [window.confirm], the locale
    functions) are arguments of the handlers or fields of the class
    [Platform]. *)

From Stdlib Require Import List ZArith NArith Bool Ascii String Lia.
From Stdlib Require Import Sorted Permutation.
Import ListNotations.

Local Open Scope Z_scope.

(** ** JavaScript strings and arrays *)

Module JS.

(** A JavaScript string is a sequence of UTF-16 code units. *)
Definition char := N.
Definition str := list char.

(** A string literal of the source, all of whose characters are ASCII. *)
Definition lit (s : string) : str :=
  List.map N_of_ascii (list_ascii_of_string s).

Fixpoint str_eqb (a b : str) : bool :=
  match a, b with
  | [], [] => true
  | x :: a', y :: b' => N.eqb x y && str_eqb a' b'
  | _, _ => false
  end.

(** [ToBoolean] on a string: only the empty string is falsy. *)
Definition truthy (s : str) : bool :=
  match s with
  | [] => false
  | _ :: _ => true
  end.

(** ECMAScript [WhiteSpace] and [LineTerminator] code points, the ones
    [String.prototype.trim] strips.  All of them lie in the basic plane. *)
Definition isWhiteSpace (c : char) : bool :=
  (* TAB, LF, VT, FF, CR *)
  ((9 <=? c) && (c <=? 13))%N
  (* SP, NBSP, OGHAM SPACE MARK *)
  || (c =? 32)%N || (c =? 160)%N || (c =? 5760)%N
  (* EN QUAD .. HAIR SPACE *)
  || ((8192 <=? c) && (c <=? 8202))%N
  (* LS, PS, NNBSP, MMSP, IDEOGRAPHIC SPACE, BOM *)
  || (c =? 8232)%N || (c =? 8233)%N || (c =? 8239)%N
  || (c =? 8287)%N || (c =? 12288)%N || (c =? 65279)%N.

Fixpoint trimStart (s : str) : str :=
  match s with
  | [] => []
  | c :: s' => if isWhiteSpace c then trimStart s' else s
  end.

Definition trimEnd (s : str) : str := rev (trimStart (rev s)).

(** [String.prototype.trim] *)
Definition trim (s : str) : str := trimEnd (trimStart s).

(** [String.prototype.split] with a separator of one code unit.  The result
    is never empty: the empty string splits into one empty piece. *)
Fixpoint split (sep : char) (s : str) : list str :=
  match s with
  | [] => [[]]
  | c :: s' =>
      if N.eqb c sep then [] :: split sep s'
      else match split sep s' with
           | [] => [[c]]
           | p :: ps => (c :: p) :: ps
           end
  end.

(** [Array.prototype.join] on an array of strings *)
Fixpoint join (sep : str) (l : list str) : str :=
  match l with
  | [] => []
  | [x] => x
  | x :: rest => x ++ sep ++ join sep rest
  end.

Fixpoint startsWith (s p : str) : bool :=
  match p, s with
  | [], _ => true
  | _ :: _, [] => false
  | a :: p', b :: s' => N.eqb a b && startsWith s' p'
  end.

(** [String.prototype.includes]: [p] occurs in [s] as a substring. *)
Fixpoint includes (s p : str) : bool :=
  startsWith s p ||
  match s with
  | [] => false
  | _ :: s' => includes s' p
  end.

(** [Array.prototype.includes] on an array of strings *)
Definition arr_includes (l : list str) (x : str) : bool :=
  existsb (fun y => str_eqb y x) l.

(** [Array.prototype.indexOf]: the first index holding [x], or -1. *)
Fixpoint indexOf (l : list str) (x : str) : Z :=
  match l with
  | [] => -1
  | y :: l' =>
      if str_eqb y x then 0
      else let r := indexOf l' x in
           if r <? 0 then -1 else r + 1
  end.

(** [Array.prototype.filter] with the three-argument callback
    [(element, index, array)]; [i] is the index of the head of [l] in
    [array]. *)
Fixpoint filter_from {A : Type} (f : A -> Z -> list A -> bool)
    (array : list A) (i : Z) (l : list A) : list A :=
  match l with
  | [] => []
  | x :: l' =>
      if f x i array then x :: filter_from f array (i + 1) l'
      else filter_from f array (i + 1) l'
  end.

Definition filter_idx {A : Type} (f : A -> Z -> list A -> bool)
    (array : list A) : list A :=
  filter_from f array 0 array.

(** [Array.from(new Set(l))]: the distinct strings of [l] in the order of
    their first appearance; [seen] holds the members of the set so far. *)
Fixpoint distinct (seen l : list str) : list str :=
  match l with
  | [] => []
  | x :: l' =>
      if arr_includes seen x then distinct seen l'
      else x :: distinct (x :: seen) l'
  end.

(** [Array.prototype.sort] with a comparator.  The language requires the
    sort to be stable; on a consistent comparator every stable sort returns
    the same array, here computed by insertion from the right. *)
Section Sort.
Context {A : Type}.
Variable cmp : A -> A -> Z.

Fixpoint insert (x : A) (l : list A) : list A :=
  match l with
  | [] => [x]
  | y :: l' => if cmp x y <=? 0 then x :: y :: l' else y :: insert x l'
  end.

Definition sort (l : list A) : list A := fold_right insert [] l.

(** The comparator lets [a] stand before [b]. *)
Definition ascending (a b : A) : Prop := cmp a b <= 0.
End Sort.

End JS.

(** ** Dates *)

Module Dates.
Import JS.

(** What a timestamp field of a note holds at run time: a [Date] object
    (only [new Date()] creates them here, so its time value is a number of
    milliseconds since the epoch) or, after a trip through JSON, the string
    that [Date.prototype.toJSON] printed. *)
Inductive DateValue : Type :=
  | DateObj (t : Z)
  | DateStr (s : str).

(** The time value of a [Date]: [None] is NaN, the invalid date. *)
Definition TimeValue := option Z.

(** *** A reference calendar (proleptic Gregorian, UTC)

    Used to run the model on concrete inputs; the theorems below quantify
    over the platform instead. *)

Definition msPerDay : Z := 86400000.

(** Day number since 1970-01-01 to (year, month, day). *)
Definition civil_from_days (z0 : Z) : Z * Z * Z :=
  let z := z0 + 719468 in
  let era := z / 146097 in
  let doe := z mod 146097 in
  let yoe := (doe - doe / 1460 + doe / 36524 - doe / 146096) / 365 in
  let doy := doe - (365 * yoe + yoe / 4 - yoe / 100) in
  let mp := (5 * doy + 2) / 153 in
  let d := doy - (153 * mp + 2) / 5 + 1 in
  let m := if mp <? 10 then mp + 3 else mp - 9 in
  let y := yoe + era * 400 + (if m <=? 2 then 1 else 0) in
  (y, m, d).

Definition days_from_civil (y0 m d : Z) : Z :=
  let y := if m <=? 2 then y0 - 1 else y0 in
  let era := y / 400 in
  let yoe := y mod 400 in
  let doy := (153 * (if 2 <? m then m - 3 else m + 9) + 2) / 5 + d - 1 in
  let doe := yoe * 365 + yoe / 4 - yoe / 100 + doy in
  era * 146097 + doe - 719468.

(** The [n] low decimal digits of [v], most significant first. *)
Fixpoint digits (n : nat) (v : Z) : str :=
  match n with
  | O => []
  | S n' => digits n' (v / 10) ++ [Z.to_N (48 + v mod 10)]
  end.

(** A non-negative number in decimal, without padding. *)
Definition decimal (v : Z) : str :=
  digits (Nat.max 1 (Z.to_nat (Z.log2 (Z.max v 1) / 3 + 1))) v.

Fixpoint strip_zeros (s : str) : str :=
  match s with
  | c :: ((_ :: _) as s') => if (c =? 48)%N then strip_zeros s' else s
  | _ => s
  end.

Definition number (v : Z) : str := strip_zeros (decimal v).

Definition year_str (y : Z) : str :=
  if (0 <=? y) && (y <=? 9999) then digits 4 y
  else lit (if y <? 0 then "-" else "+") ++ digits 6 (Z.abs y).

(** [Date.prototype.toISOString] *)
Definition ref_toISOString (t : Z) : str :=
  let ms := t mod msPerDay in
  let '(y, m, d) := civil_from_days (t / msPerDay) in
  year_str y ++ lit "-" ++ digits 2 m ++ lit "-" ++ digits 2 d
  ++ lit "T" ++ digits 2 (ms / 3600000) ++ lit ":"
  ++ digits 2 (ms / 60000 mod 60) ++ lit ":" ++ digits 2 (ms / 1000 mod 60)
  ++ lit "." ++ digits 3 (ms mod 1000) ++ lit "Z".

Definition digit_val (c : char) : option Z :=
  if ((48 <=? c) && (c <=? 57))%N then Some (Z.of_N c - 48) else None.

Fixpoint read_digits (acc : Z) (s : str) : option Z :=
  match s with
  | [] => Some acc
  | c :: s' =>
      match digit_val c with
      | Some v => read_digits (10 * acc + v) s'
      | None => None
      end
  end.

Definition field (s : str) (from len : nat) : option Z :=
  let f := firstn len (skipn from s) in
  if Nat.eqb (List.length f) len then read_digits 0 f else None.

Definition punct (s : str) (at_ : nat) (c : string) : bool :=
  str_eqb (firstn 1 (skipn at_ s)) (lit c).

(** [Date.parse] on the 24-character form [YYYY-MM-DDTHH:mm:ss.sssZ] that
    [toISOString] prints for the years 0 to 9999; anything else is NaN
    here. *)
Definition ref_Date_parse (s : str) : TimeValue :=
  if Nat.eqb (List.length s) 24
     && punct s 4 "-" && punct s 7 "-" && punct s 10 "T"
     && punct s 13 ":" && punct s 16 ":" && punct s 19 "." && punct s 23 "Z"
  then
    match field s 0 4, field s 5 2, field s 8 2,
          field s 11 2, field s 14 2, field s 17 2, field s 20 3 with
    | Some y, Some m, Some d, Some hh, Some mm, Some ss, Some ms =>
        if (1 <=? m) && (m <=? 12) && (1 <=? d) && (d <=? 31)
           && (hh <=? 23) && (mm <=? 59) && (ss <=? 59)
        then Some (days_from_civil y m d * msPerDay
                   + hh * 3600000 + mm * 60000 + ss * 1000 + ms)
        else None
    | _, _, _, _, _, _, _ => None
    end
  else None.

(** [Date.prototype.toLocaleString] for en-US in UTC:
    [M/D/YYYY, h:mm:ss AM]. *)
Definition ref_toLocaleString (tv : TimeValue) : str :=
  match tv with
  | None => lit "Invalid Date"
  | Some t =>
      let ms := t mod msPerDay in
      let '(y, m, d) := civil_from_days (t / msPerDay) in
      let h := ms / 3600000 in
      let h12 := if h mod 12 =? 0 then 12 else h mod 12 in
      number m ++ lit "/" ++ number d ++ lit "/" ++ number y ++ lit ", "
      ++ number h12 ++ lit ":" ++ digits 2 (ms / 60000 mod 60) ++ lit ":"
      ++ digits 2 (ms / 1000 mod 60)
      ++ lit (if h <? 12 then " AM" else " PM")
  end.

Definition weekday_name (w : Z) : string :=
  match w with
  | 0 => "Sunday" | 1 => "Monday" | 2 => "Tuesday" | 3 => "Wednesday"
  | 4 => "Thursday" | 5 => "Friday" | _ => "Saturday"
  end.

Definition month_name (m : Z) : string :=
  match m with
  | 1 => "January" | 2 => "February" | 3 => "March" | 4 => "April"
  | 5 => "May" | 6 => "June" | 7 => "July" | 8 => "August"
  | 9 => "September" | 10 => "October" | 11 => "November" | _ => "December"
  end.

(** [toLocaleDateString('en-US', {weekday: 'long', year: 'numeric',
    month: 'long', day: 'numeric'})] in UTC. *)
Definition ref_toLongDate (t : Z) : str :=
  let days := t / msPerDay in
  let '(y, m, d) := civil_from_days days in
  lit (weekday_name ((days + 4) mod 7)) ++ lit ", " ++ lit (month_name m)
  ++ lit " " ++ number d ++ lit ", " ++ number y.

End Dates.

(** ** The platform *)

(** Locale- and host-dependent functions that the components call.  The
    theorems hold for every platform; [ref_platform] below is one to run
    the model with. *)
Class Platform : Type := {
  (** [Date.prototype.toLocaleString()] of a date with this time value *)
  toLocaleString : Dates.TimeValue -> JS.str;
  (** [toLocaleDateString('en-US', {weekday: 'long', ...})] *)
  toLongDate : Z -> JS.str;
  (** [Date.prototype.toISOString()], also [Date.prototype.toJSON()] *)
  toISOString : Z -> JS.str;
  (** [Date.parse], the time value of [new Date(string)] *)
  Date_parse : JS.str -> Dates.TimeValue;
  (** [String.prototype.toLowerCase] *)
  toLowerCase : JS.str -> JS.str;
  (** [String.prototype.localeCompare] in the default locale *)
  localeCompare : JS.str -> JS.str -> Z
}.

Module Reference.
Import JS.

Definition isUpper (c : char) : bool := ((65 <=? c) && (c <=? 90))%N.
Definition isLower (c : char) : bool := ((97 <=? c) && (c <=? 122))%N.
Definition isDigit (c : char) : bool := ((48 <=? c) && (c <=? 57))%N.

(** Lower-casing of one Latin-1 code unit. *)
Definition lower_unit (c : char) : char :=
  if isUpper c then (c + 32)%N
  else if ((192 <=? c) && (c <=? 222) && negb (c =? 215))%N then (c + 32)%N
  else c.

(** [toLowerCase] on strings of Latin-1 code units. *)
Definition ref_toLowerCase (s : str) : str := List.map lower_unit s.

(** Comparison by code units, the plain lexicographic rule. *)
Fixpoint codeUnitCompare (a b : str) : Z :=
  match a, b with
  | [], [] => 0
  | [], _ :: _ => -1
  | _ :: _, [] => 1
  | x :: a', y :: b' =>
      if (x <? y)%N then -1
      else if (y <? x)%N then 1
      else codeUnitCompare a' b'
  end.

(** A collation in the manner of the Unicode root collation, exact on
    strings of ASCII letters: letters compare without regard to case first,
    and only on a tie does case decide, lower case first. *)
Definition caseRank (c : char) : char := if isUpper c then 1%N else 0%N.

Definition ref_localeCompare (a b : str) : Z :=
  match codeUnitCompare (List.map lower_unit a) (List.map lower_unit b) with
  | 0 => codeUnitCompare (List.map caseRank a) (List.map caseRank b)
  | r => r
  end.

Definition ref_platform : Platform := {|
  toLocaleString := Dates.ref_toLocaleString;
  toLongDate := Dates.ref_toLongDate;
  toISOString := Dates.ref_toISOString;
  Date_parse := Dates.ref_Date_parse;
  toLowerCase := ref_toLowerCase;
  localeCompare := ref_localeCompare
|}.

(** The same platform with titles compared by code units. *)
Definition codeUnit_platform : Platform := {|
  toLocaleString := Dates.ref_toLocaleString;
  toLongDate := Dates.ref_toLongDate;
  toISOString := Dates.ref_toISOString;
  Date_parse := Dates.ref_Date_parse;
  toLowerCase := ref_toLowerCase;
  localeCompare := codeUnitCompare
|}.

End Reference.

(** ** The data model (src/types) *)

Module Note.
Import JS Dates.

Record t : Type := mk {
  id : str;
  title : str;
  content : str;
  createdAt : DateValue;
  updatedAt : DateValue;
  favorite : bool;
  tags : list str
}.

End Note.

Module NoteFormData.
Import JS.

Record t : Type := mk {
  title : str;
  content : str;
  tags : list str
}.

End NoteFormData.

Inductive SortOption : Type :=
  | by_date
  | by_title
  | by_favorite.

(** ** The coordinator (src/App.tsx) *)

Module App.
Import JS Dates.

Record State : Type := mkState {
  notes : list Note.t;
  selectedNote : option Note.t
}.

(** [{...note, ...data, updatedAt: new Date()}] *)
Definition merge (note : Note.t) (data : NoteFormData.t) (now : Z) : Note.t :=
  {| Note.id := Note.id note;
     Note.title := NoteFormData.title data;
     Note.content := NoteFormData.content data;
     Note.createdAt := Note.createdAt note;
     Note.updatedAt := DateObj now;
     Note.favorite := Note.favorite note;
     Note.tags := NoteFormData.tags data |}.

(** The record of the create branch.  [now] and [now'] are the two readings
    of the clock, [uuid] the result of [crypto.randomUUID()].  [data.tags]
    is an array, hence truthy, and [data.tags || []] is [data.tags]. *)
Definition newNote (uuid : str) (now now' : Z) (data : NoteFormData.t)
  : Note.t :=
  {| Note.id := uuid;
     Note.title := NoteFormData.title data;
     Note.content := NoteFormData.content data;
     Note.createdAt := DateObj now;
     Note.updatedAt := DateObj now';
     Note.favorite := false;
     Note.tags := lit "meeting" :: NoteFormData.tags data |}.

Definition handleSaveNote (uuid : str) (now now' : Z)
    (data : NoteFormData.t) (st : State) : State :=
  match selectedNote st with
  | Some sel =>
      {| notes :=
           List.map (fun note =>
                  if str_eqb (Note.id note) (Note.id sel)
                  then merge note data now
                  else note) (notes st);
         selectedNote := None |}
  | None =>
      {| notes := newNote uuid now now' data :: notes st;
         selectedNote := selectedNote st |}
  end.

(** [confirmed] is the answer of [window.confirm]. *)
Definition handleDeleteNote (confirmed : bool) (id : str) (st : State)
  : State :=
  if confirmed then
    {| notes :=
         List.filter (fun note => negb (str_eqb (Note.id note) id)) (notes st);
       selectedNote :=
         match selectedNote st with
         | Some sel => if str_eqb (Note.id sel) id then None else Some sel
         | None => None
         end |}
  else st.

Definition handleToggleFavorite (id : str) (st : State) : State :=
  {| notes :=
       List.map (fun note =>
              if str_eqb (Note.id note) id
              then {| Note.id := Note.id note;
                      Note.title := Note.title note;
                      Note.content := Note.content note;
                      Note.createdAt := Note.createdAt note;
                      Note.updatedAt := Note.updatedAt note;
                      Note.favorite := negb (Note.favorite note);
                      Note.tags := Note.tags note |}
              else note) (notes st);
     selectedNote := selectedNote st |}.

(** [onSelectNote={setSelectedNote}] and [onClear] *)
Definition setSelectedNote (sel : option Note.t) (st : State) : State :=
  {| notes := notes st; selectedNote := sel |}.

(** *** Persistence

    The slot ['notes'] of [localStorage] holds the JSON text of the
    collection.  The text is modelled by the tree it denotes: an array of
    objects whose timestamp members are strings, since JSON has no dates
    and [JSON.stringify] prints a [Date] through [toJSON]. *)
Module Stored.
Record t : Type := mk {
  id : str;
  title : str;
  content : str;
  createdAt : str;
  updatedAt : str;
  favorite : bool;
  tags : list str
}.
End Stored.

Definition localStorage := option (list Stored.t).

Section Persist.
Context {P : Platform}.

Definition toJSON (d : DateValue) : str :=
  match d with
  | DateObj t => toISOString t
  | DateStr s => s
  end.

Definition stringify_note (n : Note.t) : Stored.t :=
  {| Stored.id := Note.id n;
     Stored.title := Note.title n;
     Stored.content := Note.content n;
     Stored.createdAt := toJSON (Note.createdAt n);
     Stored.updatedAt := toJSON (Note.updatedAt n);
     Stored.favorite := Note.favorite n;
     Stored.tags := Note.tags n |}.

(** The persist effect: [localStorage.setItem('notes',
    JSON.stringify(notes))]. *)
Definition persist (st : State) : localStorage :=
  Some (List.map stringify_note (notes st)).

(** The time value of [new Date(v)], as the views build it from a
    timestamp field. *)
Definition newDate (d : DateValue) : TimeValue :=
  match d with
  | DateObj t => Some t
  | DateStr s => Date_parse s
  end.
End Persist.

(** What [JSON.parse] makes of one stored object: the members as they are,
    the timestamps still strings. *)
Definition parse_note (s : Stored.t) : Note.t :=
  {| Note.id := Stored.id s;
     Note.title := Stored.title s;
     Note.content := Stored.content s;
     Note.createdAt := DateStr (Stored.createdAt s);
     Note.updatedAt := DateStr (Stored.updatedAt s);
     Note.favorite := Stored.favorite s;
     Note.tags := Stored.tags s |}.

(** The initial state: [savedNotes ? JSON.parse(savedNotes) : []], nothing
    selected. *)
Definition init (slot : localStorage) : State :=
  {| notes := match slot with
              | Some saved => List.map parse_note saved
              | None => []
              end;
     selectedNote := None |}.

End App.

(** ** The list view (src/components/NoteList.tsx) *)

Module NoteList.
Import JS Dates.

Record State : Type := mkState {
  searchTerm : str;
  sortBy : SortOption;
  selectedTag : option str
}.

(** [useState('')], [useState('date')], [useState(null)] *)
Definition initial : State :=
  {| searchTerm := []; sortBy := by_date; selectedTag := None |}.

(** What a download hands to the browser. *)
Record Download : Type := mkDownload {
  payload : str;
  mime : str;
  filename : str
}.

Definition nl : str := [10%N].

Section View.
Context {P : Platform}.
Variable notes : list Note.t.
Variable st : State.

Definition matchesSearch (note : Note.t) : bool :=
  includes (toLowerCase (Note.title note)) (toLowerCase (searchTerm st))
  || includes (toLowerCase (Note.content note))
       (toLowerCase (searchTerm st))
  || existsb (fun tag =>
                includes (toLowerCase tag) (toLowerCase (searchTerm st)))
       (Note.tags note).

(** [!selectedTag || note.tags.includes(selectedTag)]: [null] and the
    empty string are both falsy. *)
Definition matchesTag (note : Note.t) : bool :=
  match selectedTag st with
  | None => true
  | Some tag => negb (truthy tag) || arr_includes (Note.tags note) tag
  end.

Definition filteredNotes : list Note.t :=
  List.filter (fun note => matchesSearch note && matchesTag note) notes.

(** The comparator of [sortedNotes].  A difference with NaN is NaN, which
    [sort] reads as zero. *)
Definition compareNotes (a b : Note.t) : Z :=
  match sortBy st with
  | by_title => localeCompare (Note.title a) (Note.title b)
  | by_favorite =>
      (if Note.favorite b then 1 else 0) - (if Note.favorite a then 1 else 0)
  | by_date =>
      match App.newDate (Note.updatedAt b), App.newDate (Note.updatedAt a)
      with
      | Some tb, Some ta => tb - ta
      | _, _ => 0
      end
  end.

Definition sortedNotes : list Note.t := sort compareNotes filteredNotes.

(** The template literal of [exportNote]. *)
Definition exportNote_markdown (note : Note.t) : str :=
  lit "# " ++ Note.title note ++ nl ++ nl
  ++ Note.content note ++ nl ++ nl
  ++ lit "## Tags" ++ nl
  ++ join nl (List.map (fun tag => lit "- " ++ tag) (Note.tags note))
  ++ nl ++ nl
  ++ lit "Created: " ++ toLocaleString (App.newDate (Note.createdAt note))
  ++ nl
  ++ lit "Last Updated: "
  ++ toLocaleString (App.newDate (Note.updatedAt note)).

(** [s.replace(/[^a-z0-9]/gi, '_').toLowerCase()].  Without the [u] flag
    the case-insensitive class matches the ASCII letters and digits only,
    so what is left to lower-case is ASCII. *)
Definition slug (s : str) : str :=
  List.map (fun c =>
         if Reference.isUpper c then (c + 32)%N
         else if Reference.isLower c || Reference.isDigit c then c
         else 95%N) s.

Definition exportNote (note : Note.t) : Download :=
  {| payload := exportNote_markdown note;
     mime := lit "text/markdown";
     filename := slug (Note.title note) ++ lit ".md" |}.

(** The template literal inside [exportAllNotes], written out again in
    the source with the rule at its end. *)
Definition exportAll_block (note : Note.t) : str :=
  lit "# " ++ Note.title note ++ nl ++ nl
  ++ Note.content note ++ nl ++ nl
  ++ lit "## Tags" ++ nl
  ++ join nl (List.map (fun tag => lit "- " ++ tag) (Note.tags note))
  ++ nl ++ nl
  ++ lit "Created: " ++ toLocaleString (App.newDate (Note.createdAt note))
  ++ nl
  ++ lit "Last Updated: "
  ++ toLocaleString (App.newDate (Note.updatedAt note))
  ++ nl ++ nl ++ lit "---" ++ nl ++ nl.

Definition exportAll_markdown : str :=
  join nl (List.map exportAll_block sortedNotes).

(** [now] is the reading of the clock by [new Date()]. *)
Definition exportAllNotes (now : Z) : Download :=
  {| payload := exportAll_markdown;
     mime := lit "text/markdown";
     filename :=
       lit "meeting_notes_"
       ++ hd [] (split 84%N (toISOString now))
       ++ lit ".md" |}.

(** [Array.from(new Set(notes.flatMap(note => note.tags))).sort()]; the
    default [sort()] compares strings by code units. *)
Definition allTags : list str :=
  sort Reference.codeUnitCompare (distinct [] (flat_map Note.tags notes)).

(** The tag buttons: a click on the selected tag unselects it. *)
Definition onTagClick (tag : str) : State :=
  {| searchTerm := searchTerm st;
     sortBy := sortBy st;
     selectedTag :=
       match selectedTag st with
       | Some cur => if str_eqb cur tag then None else Some tag
       | None => Some tag
       end |}.

End View.

End NoteList.

(** ** The editor (src/components/NoteEditor.tsx) *)

Module NoteEditor.
Import JS Dates.

Record State : Type := mkState {
  isRecording : bool;
  formData : NoteFormData.t;
  newTag : str
}.

Definition initial : State :=
  {| isRecording := false;
     formData := {| NoteFormData.title := [];
                    NoteFormData.content := [];
                    NoteFormData.tags := [] |};
     newTag := [] |}.

Definition setFormData (fd : NoteFormData.t) (st : State) : State :=
  {| isRecording := isRecording st; formData := fd; newTag := newTag st |}.

Definition setNewTag (s : str) (st : State) : State :=
  {| isRecording := isRecording st; formData := formData st; newTag := s |}.

(** [setFormData(prev => ({...prev, title: v}))] and its siblings *)
Definition withTitle (v : str) (fd : NoteFormData.t) : NoteFormData.t :=
  {| NoteFormData.title := v;
     NoteFormData.content := NoteFormData.content fd;
     NoteFormData.tags := NoteFormData.tags fd |}.

Definition withContent (v : str) (fd : NoteFormData.t) : NoteFormData.t :=
  {| NoteFormData.title := NoteFormData.title fd;
     NoteFormData.content := v;
     NoteFormData.tags := NoteFormData.tags fd |}.

Definition withTags (v : list str) (fd : NoteFormData.t) : NoteFormData.t :=
  {| NoteFormData.title := NoteFormData.title fd;
     NoteFormData.content := NoteFormData.content fd;
     NoteFormData.tags := v |}.

(** The [onChange] handlers of the title input and of the text area. *)
Definition onTitleChange (v : str) (st : State) : State :=
  setFormData (withTitle v (formData st)) st.

Definition onContentChange (v : str) (st : State) : State :=
  setFormData (withContent v (formData st)) st.

(** The fresh draft; [today] is the long form of the current date. *)
Definition template (today : str) : NoteFormData.t :=
  {| NoteFormData.title := lit "Meeting Notes - " ++ today;
     NoteFormData.content := [];
     NoteFormData.tags := [lit "meeting"] |}.

(** One result of the recognizer: a non-empty list of alternatives. *)
Record SpeechRecognitionAlternative : Type := mkAlternative {
  transcript : str
}.

Record SpeechRecognitionResult : Type := mkResult {
  item0 : SpeechRecognitionAlternative;
  alternatives : list SpeechRecognitionAlternative
}.

(** The callback of the [filter] in [onresult]:
    [sentence && array.indexOf(sentence) === index]. *)
Definition firstOccurrence (sentence : str) (index : Z) (array : list str)
  : bool :=
  truthy sentence && (indexOf array sentence =? index).

(** [cleanedTranscript] of [recognition.onresult], from [event.results]. *)
Definition cleanedTranscript (results : list SpeechRecognitionResult) : str :=
  let transcript :=
    join (lit " ") (List.map (fun result => transcript (item0 result)) results)
  in
  join (lit ". ")
    (filter_idx firstOccurrence (List.map trim (split 46%N transcript))).

Definition onresult (results : list SpeechRecognitionResult) (st : State)
  : State :=
  setFormData (withContent (cleanedTranscript results) (formData st)) st.

(** [key] is [e.key]. *)
Definition addTag (key : str) (st : State) : State :=
  if str_eqb key (lit "Enter") && truthy (trim (newTag st)) then
    setNewTag []
      (if negb (arr_includes (NoteFormData.tags (formData st))
                  (trim (newTag st)))
       then setFormData
              (withTags (NoteFormData.tags (formData st) ++ [trim (newTag st)])
                 (formData st)) st
       else st)
  else st.

Definition removeTag (tagToRemove : str) (st : State) : State :=
  setFormData
    (withTags
       (List.filter (fun tag => negb (str_eqb tag tagToRemove))
          (NoteFormData.tags (formData st)))
       (formData st)) st.

(** The [onBlur] handler of the text area. *)
Definition cleanContent (content : str) : str :=
  join (lit ". ")
    (List.filter (fun sentence => truthy sentence)
       (List.map trim (split 46%N content))).

Definition formatContent (st : State) : State :=
  setFormData
    (withContent (cleanContent (NoteFormData.content (formData st))
                  ++ lit ".")
       (formData st)) st.

(** *** The recording controls *)

Definition setIsRecording (b : bool) (st : State) : State :=
  {| isRecording := b; formData := formData st; newTag := newTag st |}.

(** The [state] of a [PermissionStatus]. *)
Inductive PermissionState : Type :=
  | granted
  | denied
  | prompt.

(** What the platform answers to one request for the microphone:
    [query] is the result of [navigator.permissions.query], [None] when it
    throws; [getUserMedia] tells whether the media prompt resolves. *)
Record Microphone : Type := mkMicrophone {
  query : option PermissionState;
  getUserMedia : bool
}.

Definition not_supported_alert : str :=
  lit "Speech recognition is not supported in your browser".

Definition blocked_alert : str :=
  lit "Microphone access is blocked. Please enable it in your browser settings to use speech recognition.".

Definition refused_alert : str :=
  lit "Microphone access was denied. Speech recognition requires microphone access to work.".

Definition start_failed_alert : str :=
  lit "Failed to start speech recognition. Please try again.".

Definition not_allowed_alert : str :=
  lit "Microphone access was denied. Please enable microphone access in your browser settings to use speech recognition.".

(** The result and the messages of [alert] raised on the way. *)
Definition requestMicrophonePermission (mic : Microphone)
  : bool * list str :=
  match query mic with
  | None => (false, [])
  | Some denied => (false, [blocked_alert])
  | Some prompt =>
      if getUserMedia mic then (true, []) else (false, [refused_alert])
  | Some granted => (true, [])
  end.

(** [supported] tells whether the mount effect found
    [webkitSpeechRecognition] and filled [recognition.current];
    [start_ok] whether [recognition.current.start()] returns. *)
Definition toggleRecording (supported : bool) (mic : Microphone)
    (start_ok : bool) (st : State) : State * list str :=
  if negb supported then (st, [not_supported_alert])
  else if isRecording st then (setIsRecording false st, [])
  else
    let (hasPermission, alerts) := requestMicrophonePermission mic in
    if hasPermission then
      if start_ok then (setIsRecording true st, alerts)
      else (st, alerts ++ [start_failed_alert])
    else (st, alerts).

(** [recognition.onerror]; [error] is [event.error]. *)
Definition onerror (error : str) (st : State) : State * list str :=
  (setIsRecording false st,
   if str_eqb error (lit "not-allowed") then [not_allowed_alert] else []).

Section Component.
Context {P : Platform}.

(** The effect on [selectedNote]: it runs after mounting and whenever the
    selection changes; [now] is the reading of the clock. *)
Definition onSelectedNote (selectedNote : option Note.t) (now : Z)
    (st : State) : State :=
  match selectedNote with
  | Some note =>
      setFormData {| NoteFormData.title := Note.title note;
                     NoteFormData.content := Note.content note;
                     NoteFormData.tags := Note.tags note |} st
  | None => setFormData (template (toLongDate now)) st
  end.

(** The props [onSave] and [onClear] act on the state of the parent. *)
Context {Parent : Type}.
Variable onSave : NoteFormData.t -> Parent -> Parent.
Variable onClear : Parent -> Parent.

Definition handleClear (now : Z) (ps : Parent * State) : Parent * State :=
  (onClear (fst ps), setFormData (template (toLongDate now)) (snd ps)).

Definition validation_alert : str :=
  lit "Please enter both title and content for the note.".

(** The result carries the message of [alert], if one was raised. *)
Definition handleSubmit (now : Z) (ps : Parent * State)
  : (Parent * State) * option str :=
  let fd := formData (snd ps) in
  if negb (truthy (trim (NoteFormData.title fd)))
     || negb (truthy (trim (NoteFormData.content fd)))
  then (ps, Some validation_alert)
  else (handleClear now (onSave fd (fst ps), snd ps), None).
End Component.

End NoteEditor.

(** ** The tree of components (App renders NoteList and NoteEditor) *)

Module Root.
Import JS Dates.

Definition State : Type := (App.State * NoteEditor.State)%type.

Section Wiring.
Context {P : Platform}.

(** First render on a given content of the storage slot, and the mount
    effect of the editor. *)
Definition mount (slot : App.localStorage) (now : Z) : State :=
  let app := App.init slot in
  (app, NoteEditor.onSelectedNote (App.selectedNote app) now
          NoteEditor.initial).

(** [<NoteEditor onSave={handleSaveNote}
    onClear={() => setSelectedNote(null)} />]: a submit of the form.
    [uuid], [t_created] and [t_updated] are what [handleSaveNote] draws
    from the platform, [t_clear] the clock of [handleClear]. *)
Definition submit (uuid : str) (t_created t_updated t_clear : Z)
    (s : State) : State * option str :=
  NoteEditor.handleSubmit
    (App.handleSaveNote uuid t_created t_updated)
    (App.setSelectedNote None) t_clear s.

Definition typeTitle (v : str) (s : State) : State :=
  (fst s, NoteEditor.onTitleChange v (snd s)).

Definition typeContent (v : str) (s : State) : State :=
  (fst s, NoteEditor.onContentChange v (snd s)).

Definition blurContent (s : State) : State :=
  (fst s, NoteEditor.formatContent (snd s)).
End Wiring.

End Root.

(** ** The specification's wording, as definitions to compare with *)

Module Spec.
Import JS Dates.

Fixpoint dropEmpty (l : list str) : list str :=
  match l with
  | [] => []
  | [] :: l' => dropEmpty l'
  | (c :: s) :: l' => (c :: s) :: dropEmpty l'
  end.

(** "splits content on period characters, trims each resulting segment,
    drops empty segments, rejoins with [". "]" *)
Definition normalize (content : str) : str :=
  join (lit ". ") (dropEmpty (List.map trim (split 46%N content))).

(** "deduplicated by exact repeated sentence text (keeps first occurrence
    only, in order)" *)
Fixpoint dedupe (l : list str) : list str :=
  match l with
  | [] => []
  | x :: l' => x :: List.filter (fun y => negb (str_eqb y x)) (dedupe l')
  end.

(** The running transcript of a list of captured segments. *)
Definition transcriptContent (segments : list str) : str :=
  join (lit ". ")
    (dedupe (dropEmpty (List.map trim (split 46%N (join (lit " ") segments))))).

(** The horizontal rule of Markdown. *)
Definition rule : str := lit "---".

(** "concatenation of each note's Markdown block separated by a
    horizontal-rule line"; [sep] is the rule with the line breaks around
    it, on which the wording is silent. *)
Definition exportAll {P : Platform} (sep : str) (visible : list Note.t)
  : str :=
  join sep (List.map NoteList.exportNote_markdown visible).

(** What the code puts after every block. *)
Definition ruleAfter : str :=
  NoteList.nl ++ NoteList.nl ++ rule ++ NoteList.nl ++ NoteList.nl.

(** "lexicographic ascending by title" *)
Definition titleLe (a b : Note.t) : Prop :=
  Reference.codeUnitCompare (Note.title a) (Note.title b) <= 0.

End Spec.

(** ** Concrete inputs *)

Module Examples.
Import JS Dates.

Definition t0 : Z := 1700000000000.

Definition note (id title content : string) (tags : list string) : Note.t :=
  {| Note.id := lit id;
     Note.title := lit title;
     Note.content := lit content;
     Note.createdAt := DateObj t0;
     Note.updatedAt := DateObj t0;
     Note.favorite := false;
     Note.tags := List.map lit tags |}.

Definition standup : Note.t :=
  note "n-1" "Standup" "We shipped X." ["meeting"%string].

Definition retro : Note.t :=
  note "n-2" "Retro" "Went well." ["meeting"%string; "team"%string].

Definition fruit : list Note.t :=
  [ note "n-1" "Banana" "b" ["meeting"%string];
    note "n-2" "apple" "a" ["meeting"%string];
    note "n-3" "Cherry" "c" ["meeting"%string] ].

Definition empty_draft : NoteFormData.t :=
  {| NoteFormData.title := [];
     NoteFormData.content := [];
     NoteFormData.tags := [] |}.

Definition blank_draft : NoteFormData.t :=
  {| NoteFormData.title := lit "Standup";
     NoteFormData.content := lit "   ";
     NoteFormData.tags := [lit "meeting"] |}.

Definition empty_app : App.State :=
  {| App.notes := []; App.selectedNote := None |}.

Definition two_notes : App.State :=
  {| App.notes := [standup; retro]; App.selectedNote := None |}.

(** An editor over two stored notes whose draft has a blank content. *)
Definition blank_state : Root.State :=
  (two_notes, NoteEditor.setFormData blank_draft NoteEditor.initial).

(** The list view with the tag [tag] selected and [term] searched for. *)
Definition view (term tag : string) : NoteList.State :=
  {| NoteList.searchTerm := lit term;
     NoteList.sortBy := by_date;
     NoteList.selectedTag := Some (lit tag) |}.

Definition segment (s : string) : NoteEditor.SpeechRecognitionResult :=
  {| NoteEditor.item0 := {| NoteEditor.transcript := lit s |};
     NoteEditor.alternatives := [] |}.

(** The scenario of the first note: the application starts on an empty
    storage slot at time [t_mount], the user types a title and a content
    into the fresh draft and submits the form. *)
Definition create_standup {P : Platform} (uuid : str)
    (t_mount t_created t_updated t_clear : Z) : Root.State * option str :=
  Root.submit uuid t_created t_updated t_clear
    (Root.typeContent (lit "We shipped X.")
       (Root.typeTitle (lit "Standup") (Root.mount None t_mount))).

End Examples.

(** * Properties *)

Import JS Dates.

(** ** Strings and arrays *)

Lemma str_eqb_eq (a b : str) : str_eqb a b = true <-> a = b.
Proof.
  revert b; induction a as [|x a IH]; intros [|y b]; simpl;
    try (split; [discriminate | discriminate]); try tauto.
  rewrite andb_true_iff, N.eqb_eq, IH.
  split; [intros [-> ->]; reflexivity | intros [= -> ->]; auto].
Qed.

Lemma str_eqb_refl (a : str) : str_eqb a a = true.
Proof. apply str_eqb_eq; reflexivity. Qed.

Lemma str_eqb_neq (a b : str) : str_eqb a b = false <-> a <> b.
Proof.
  rewrite <- str_eqb_eq. destruct (str_eqb a b); split; congruence.
Qed.

Lemma arr_includes_In (l : list str) (x : str) :
  arr_includes l x = true <-> In x l.
Proof.
  unfold arr_includes. rewrite existsb_exists. split.
  - intros (y & Hy & E). apply str_eqb_eq in E. subst; assumption.
  - intros H. exists x. split; [assumption | apply str_eqb_refl].
Qed.

Lemma arr_includes_not_In (l : list str) (x : str) :
  arr_includes l x = false <-> ~ In x l.
Proof.
  rewrite <- arr_includes_In. destruct (arr_includes l x); split; congruence.
Qed.

Lemma truthy_false (s : str) : truthy s = false <-> s = [].
Proof. destruct s; simpl; split; congruence. Qed.

(** ** The coordinator *)

(** A map that fixes every element of a list fixes the list. *)
Lemma map_fixes {A : Type} (f : A -> A) (l : list A) :
  (forall x, In x l -> f x = x) -> List.map f l = l.
Proof.
  induction l as [|x l IH]; simpl; intros H; [reflexivity|].
  rewrite H by (left; reflexivity). rewrite IH; [reflexivity|].
  intros y Hy. apply H. right; assumption.
Qed.

Lemma filter_keeps_all {A : Type} (f : A -> bool) (l : list A) :
  (forall x, In x l -> f x = true) -> List.filter f l = l.
Proof.
  induction l as [|x l IH]; simpl; intros H; [reflexivity|].
  rewrite H by (left; reflexivity). rewrite IH; [reflexivity|].
  intros y Hy. apply H. right; assumption.
Qed.

Lemma id_absent (id : str) (l : list Note.t) (n : Note.t) :
  ~ In id (List.map Note.id l) -> In n l -> str_eqb (Note.id n) id = false.
Proof.
  intros Hno Hin. apply str_eqb_neq. intros E. apply Hno.
  rewrite <- E. apply in_map. assumption.
Qed.

(** C7: for every collection and every id of a note in it, two toggles of
    the favorite flag give back the very same state, every field of every
    note included; one toggle keeps the length and the order of the
    collection, negates the flag of the notes with that id and changes no
    other field of any note, and the note addressed is among those
    flipped. *)
Theorem toggleFavorite_involutive (st : App.State) (id : str) :
  In id (List.map Note.id (App.notes st)) ->
  App.handleToggleFavorite id (App.handleToggleFavorite id st) = st
  /\ List.length (App.notes (App.handleToggleFavorite id st))
     = List.length (App.notes st)
  /\ (forall (i : nat) (n : Note.t),
        nth_error (App.notes st) i = Some n ->
        exists n',
          nth_error (App.notes (App.handleToggleFavorite id st)) i = Some n'
          /\ Note.id n' = Note.id n
          /\ Note.title n' = Note.title n
          /\ Note.content n' = Note.content n
          /\ Note.createdAt n' = Note.createdAt n
          /\ Note.updatedAt n' = Note.updatedAt n
          /\ Note.tags n' = Note.tags n
          /\ Note.favorite n'
             = (if str_eqb (Note.id n) id then negb (Note.favorite n)
                else Note.favorite n))
  /\ (exists n,
        In n (App.notes st) /\ Note.id n = id
        /\ exists n', In n' (App.notes (App.handleToggleFavorite id st))
                      /\ Note.id n' = id
                      /\ Note.favorite n' = negb (Note.favorite n)).
Proof.
  intros Hin. destruct st as [l sel]. simpl in *.
  split; [|split; [|split]].
  - unfold App.handleToggleFavorite; simpl. f_equal.
    rewrite map_map. apply map_fixes. intros [i t c ca ua f tg] _; simpl.
    destruct (str_eqb i id) eqn:E; simpl; rewrite E; [|reflexivity].
    rewrite negb_involutive. reflexivity.
  - apply length_map.
  - intros i n Hn.
    rewrite nth_error_map, Hn; simpl.
    destruct (str_eqb (Note.id n) id) eqn:E.
    + eexists; split; [reflexivity|]. simpl. repeat split; reflexivity.
    + exists n. repeat split; reflexivity.
  - apply in_map_iff in Hin. destruct Hin as (n & Hid & Hn).
    exists n. split; [exact Hn|]. split; [exact Hid|].
    eexists. split; [apply in_map; exact Hn|].
    rewrite Hid, str_eqb_refl; simpl. split; reflexivity.
Qed.

Lemma toggleFavorite_involutive_witness :
  In (lit "n-2") (List.map Note.id (App.notes Examples.two_notes))
  /\ App.handleToggleFavorite (lit "n-2")
       (App.handleToggleFavorite (lit "n-2") Examples.two_notes)
     = Examples.two_notes.
Proof.
  assert (H : In (lit "n-2")
                (List.map Note.id (App.notes Examples.two_notes)))
    by (simpl; right; left; reflexivity).
  split; [exact H|].
  exact (proj1 (toggleFavorite_involutive Examples.two_notes (lit "n-2") H)).
Defined.

(** C10: a mutation addressed to an id that no note of the collection
    carries leaves the stored notes as they are: the toggle of the
    favorite flag, the confirmed deletion, and the save in update mode
    whose selected note has such an id. *)
Theorem missing_id_noop (st : App.State) (id : str) :
  ~ In id (List.map Note.id (App.notes st)) ->
  App.notes (App.handleToggleFavorite id st) = App.notes st
  /\ App.notes (App.handleDeleteNote true id st) = App.notes st
  /\ (forall (sel : Note.t) (data : NoteFormData.t) (uuid : str)
             (now now' : Z),
        Note.id sel = id ->
        App.notes (App.handleSaveNote uuid now now' data
                     (App.setSelectedNote (Some sel) st))
        = App.notes st).
Proof.
  intros Hno. split; [|split].
  - simpl. apply map_fixes. intros n Hn.
    rewrite (id_absent id _ n Hno Hn). reflexivity.
  - simpl. apply filter_keeps_all. intros n Hn.
    rewrite (id_absent id _ n Hno Hn). reflexivity.
  - intros sel data uuid now now' Hsel. simpl. apply map_fixes.
    intros n Hn. rewrite Hsel, (id_absent id _ n Hno Hn). reflexivity.
Qed.

Lemma missing_id_noop_witness :
  ~ In (lit "n-9") (List.map Note.id (App.notes Examples.two_notes))
  /\ App.notes (App.handleToggleFavorite (lit "n-9") Examples.two_notes)
     = App.notes Examples.two_notes.
Proof.
  assert (H : ~ In (lit "n-9")
                  (List.map Note.id (App.notes Examples.two_notes))).
  { simpl. intros [E | [E | []]]; vm_compute in E; discriminate E. }
  split; [exact H|].
  exact (proj1 (missing_id_noop Examples.two_notes (lit "n-9") H)).
Defined.

(** ** Saving from the editor *)

(** C1, the code at the scenario's input: on every platform, whatever the
    generated id and the readings of the clock, creating the note
    "Standup" / "We shipped X." from the fresh draft raises no alert and
    leaves a collection of exactly one note, not a favorite, whose tags
    are ["meeting"; "meeting"]: the tag of the draft template comes after
    the one that the create branch prepends.  The tags are therefore not
    ["meeting"]. *)
Theorem create_standup_tags {P : Platform} (uuid : str)
    (t_mount t_created t_updated t_clear : Z) :
  snd (Examples.create_standup uuid t_mount t_created t_updated t_clear)
  = None
  /\ exists n,
       App.notes
         (fst (fst (Examples.create_standup uuid t_mount t_created
                      t_updated t_clear))) = [n]
       /\ Note.id n = uuid
       /\ Note.title n = lit "Standup"
       /\ Note.content n = lit "We shipped X."
       /\ Note.favorite n = false
       /\ Note.tags n = [lit "meeting"; lit "meeting"]
       /\ Note.tags n <> [lit "meeting"].
Proof.
  split; [reflexivity|].
  eexists. split; [reflexivity|]. simpl.
  repeat (split; [reflexivity|]). discriminate.
Qed.

(** The form is not submitted when the trimmed title or the trimmed
    content is empty, whatever the callbacks of the parent are. *)
Lemma handleSubmit_rejects {P : Platform} {Parent : Type}
    (onSave : NoteFormData.t -> Parent -> Parent) (onClear : Parent -> Parent)
    (now : Z) (ps : Parent * NoteEditor.State) :
  trim (NoteFormData.title (NoteEditor.formData (snd ps))) = []
  \/ trim (NoteFormData.content (NoteEditor.formData (snd ps))) = [] ->
  NoteEditor.handleSubmit onSave onClear now ps
  = (ps, Some NoteEditor.validation_alert).
Proof.
  intros H. unfold NoteEditor.handleSubmit.
  destruct H as [-> | ->]; simpl; [reflexivity|].
  rewrite orb_true_r. reflexivity.
Qed.

(** C2, as the code has it: the guard against an empty draft is in the
    submit handler of the editor.  When the title or the content of the
    draft is empty, or blank, a submit does not call the save operation:
    the collection, the selection and the draft stay as they are and the
    validation message is raised. *)
Theorem submit_blank_draft_noop {P : Platform} (s : Root.State) (uuid : str)
    (t_created t_updated t_clear : Z) :
  trim (NoteFormData.title (NoteEditor.formData (snd s))) = []
  \/ trim (NoteFormData.content (NoteEditor.formData (snd s))) = [] ->
  Root.submit uuid t_created t_updated t_clear s
  = (s, Some NoteEditor.validation_alert).
Proof.
  intros H. unfold Root.submit. apply handleSubmit_rejects. exact H.
Qed.

Lemma submit_blank_draft_noop_witness :
  (trim (NoteFormData.title
           (NoteEditor.formData (snd Examples.blank_state))) = []
   \/ trim (NoteFormData.content
              (NoteEditor.formData (snd Examples.blank_state))) = [])
  /\ Root.submit (P := Reference.ref_platform) (lit "u-1")
       Examples.t0 Examples.t0 Examples.t0 Examples.blank_state
     = (Examples.blank_state, Some NoteEditor.validation_alert).
Proof.
  assert (H : trim (NoteFormData.title
                      (NoteEditor.formData (snd Examples.blank_state))) = []
              \/ trim (NoteFormData.content
                         (NoteEditor.formData (snd Examples.blank_state)))
                 = [])
    by (right; reflexivity).
  split; [exact H|].
  exact (submit_blank_draft_noop (P := Reference.ref_platform)
           Examples.blank_state (lit "u-1")
           Examples.t0 Examples.t0 Examples.t0 H).
Defined.

(** C2 as stated fails: the save operation itself does not look at the
    draft.  With nothing selected an empty draft is stored as a new note;
    with a note selected it overwrites the title and the content of that
    note. *)
Lemma saveNote_empty_draft_mutates :
  App.notes (App.handleSaveNote (lit "u-1") Examples.t0 Examples.t0
               Examples.empty_draft Examples.empty_app)
  <> App.notes Examples.empty_app
  /\ App.notes (App.handleSaveNote (lit "u-1") Examples.t0 Examples.t0
                  Examples.empty_draft
                  (App.setSelectedNote (Some Examples.standup)
                     Examples.two_notes))
     <> App.notes Examples.two_notes.
Proof.
  split; vm_compute; discriminate.
Qed.

(** ** Sentences: formatting and transcripts *)

Lemma dropEmpty_filter (l : list str) :
  Spec.dropEmpty l = List.filter truthy l.
Proof.
  induction l as [|[|c s] l IH]; simpl; [reflexivity | exact IH |].
  rewrite IH. reflexivity.
Qed.

Lemma dropEmpty_truthy (l : list str) (y : str) :
  In y (Spec.dropEmpty l) -> truthy y = true.
Proof.
  rewrite dropEmpty_filter, filter_In. tauto.
Qed.

Lemma dedupe_In (l : list str) (y : str) : In y (Spec.dedupe l) -> In y l.
Proof.
  induction l as [|x l IH]; simpl; [tauto|].
  intros [E | H]; [left; exact E|].
  apply filter_In in H. right. apply IH. tauto.
Qed.

Lemma indexOf_bounds (l : list str) (x : str) :
  -1 <= indexOf l x < Z.of_nat (List.length l).
Proof.
  induction l as [|y l IH]; simpl List.length; simpl indexOf; [lia|].
  destruct (str_eqb y x); [lia|].
  destruct (indexOf l x <? 0) eqn:E; [lia|].
  apply Z.ltb_ge in E. lia.
Qed.

Lemma indexOf_absent (l : list str) (x : str) :
  ~ In x l -> indexOf l x = -1.
Proof.
  induction l as [|y l IH]; simpl; intros H; [reflexivity|].
  destruct (str_eqb y x) eqn:E.
  - apply str_eqb_eq in E. tauto.
  - rewrite IH by tauto. reflexivity.
Qed.

Lemma indexOf_present (l : list str) (x : str) :
  In x l -> 0 <= indexOf l x.
Proof.
  induction l as [|y l IH]; simpl; intros H; [tauto|].
  destruct (str_eqb y x) eqn:E; [lia|].
  apply str_eqb_neq in E. destruct H as [H | H]; [congruence|].
  specialize (IH H). destruct (indexOf l x <? 0) eqn:L; [|lia].
  apply Z.ltb_lt in L. lia.
Qed.

(** The first index of [x] in [pre ++ l] lies in [pre] when [x] occurs
    there. *)
Lemma indexOf_app_left (pre l : list str) (x : str) :
  In x pre -> indexOf (pre ++ l) x = indexOf pre x.
Proof.
  induction pre as [|y pre IH]; simpl; intros H; [tauto|].
  destruct (str_eqb y x) eqn:E; [reflexivity|].
  apply str_eqb_neq in E. destruct H as [H | H]; [congruence|].
  rewrite (IH H). reflexivity.
Qed.

Lemma indexOf_app_here (pre l : list str) (x : str) :
  ~ In x pre -> indexOf (pre ++ x :: l) x = Z.of_nat (List.length pre).
Proof.
  induction pre as [|y pre IH]; intros H.
  - simpl. rewrite str_eqb_refl. reflexivity.
  - simpl app. simpl indexOf. simpl in H.
    destruct (str_eqb y x) eqn:E.
    + apply str_eqb_eq in E. tauto.
    + rewrite IH by tauto.
      destruct (Z.of_nat (List.length pre) <? 0) eqn:L.
      * apply Z.ltb_lt in L. lia.
      * simpl List.length. lia.
Qed.

(** The callback of [onresult] keeps a sentence exactly when it is not
    empty and has not occurred before. *)
Lemma firstOccurrence_spec (pre l : list str) (x : str) :
  NoteEditor.firstOccurrence x (Z.of_nat (List.length pre)) (pre ++ x :: l)
  = truthy x && negb (arr_includes pre x).
Proof.
  unfold NoteEditor.firstOccurrence. f_equal.
  destruct (arr_includes pre x) eqn:E; simpl.
  - apply arr_includes_In in E.
    rewrite indexOf_app_left by exact E.
    pose proof (indexOf_bounds pre x). apply Z.eqb_neq. lia.
  - apply arr_includes_not_In in E.
    rewrite indexOf_app_here by exact E. apply Z.eqb_refl.
Qed.

Lemma arr_includes_snoc (pre : list str) (x y : str) :
  arr_includes (pre ++ [x]) y = arr_includes pre y || str_eqb x y.
Proof.
  unfold arr_includes. rewrite existsb_app. simpl.
  rewrite orb_false_r. reflexivity.
Qed.

Lemma str_eqb_sym (a b : str) : str_eqb a b = str_eqb b a.
Proof.
  destruct (str_eqb a b) eqn:E.
  - apply str_eqb_eq in E. subst. symmetry. apply str_eqb_refl.
  - symmetry. apply str_eqb_neq. apply str_eqb_neq in E. congruence.
Qed.

Lemma filter_filter {A : Type} (f g : A -> bool) (l : list A) :
  List.filter f (List.filter g l) = List.filter (fun y => g y && f y) l.
Proof.
  induction l as [|x l IH]; simpl; [reflexivity|].
  destruct (g x); simpl; [destruct (f x)|]; congruence.
Qed.

(** The filter of [onresult], started in the middle of the array: after
    the pieces [pre], what it keeps of [l] are the first occurrences of
    the non-empty pieces that [pre] does not hold. *)
Lemma filter_from_dedupe (l pre : list str) :
  filter_from NoteEditor.firstOccurrence (pre ++ l)
    (Z.of_nat (List.length pre)) l
  = List.filter (fun y => negb (arr_includes pre y))
      (Spec.dedupe (Spec.dropEmpty l)).
Proof.
  revert pre. induction l as [|x l IH]; intros pre; [reflexivity|].
  simpl filter_from. rewrite firstOccurrence_spec.
  replace (pre ++ x :: l) with ((pre ++ [x]) ++ l)
    by (rewrite <- app_assoc; reflexivity).
  replace (Z.of_nat (List.length pre) + 1)
    with (Z.of_nat (List.length (pre ++ [x])))
    by (rewrite length_app; simpl; lia).
  rewrite IH. destruct x as [|c s].
  - simpl. apply filter_ext_in. intros y Hy.
    rewrite arr_includes_snoc.
    apply dedupe_In, dropEmpty_truthy in Hy.
    destruct y; [discriminate|]. simpl. rewrite orb_false_r. reflexivity.
  - simpl truthy. simpl Spec.dropEmpty. simpl Spec.dedupe.
    simpl List.filter. rewrite filter_filter.
    assert (E : List.filter (fun y => negb (arr_includes (pre ++ [c :: s]) y))
                  (Spec.dedupe (Spec.dropEmpty l))
                = List.filter
                    (fun y => negb (str_eqb y (c :: s))
                              && negb (arr_includes pre y))
                    (Spec.dedupe (Spec.dropEmpty l))).
    { apply filter_ext. intros y. rewrite arr_includes_snoc.
      rewrite (str_eqb_sym (c :: s) y), negb_orb. apply andb_comm. }
    destruct (arr_includes pre (c :: s)); simpl; [exact E|].
    f_equal. exact E.
Qed.

Lemma filter_idx_dedupe (l : list str) :
  filter_idx NoteEditor.firstOccurrence l = Spec.dedupe (Spec.dropEmpty l).
Proof.
  unfold filter_idx.
  pose proof (filter_from_dedupe l []) as H. simpl in H. rewrite H.
  apply filter_keeps_all. reflexivity.
Qed.

(** C3, as the code has it: the blur handler replaces the content by the
    string obtained by splitting on periods, trimming each segment,
    dropping the empty segments and rejoining with [". "], followed by one
    closing period; the title, the tags and the rest of the editor state
    are untouched. *)
Theorem formatContent_normalize_period (st : NoteEditor.State) :
  NoteFormData.content (NoteEditor.formData (NoteEditor.formatContent st))
  = Spec.normalize (NoteFormData.content (NoteEditor.formData st)) ++ lit "."
  /\ NoteFormData.title (NoteEditor.formData (NoteEditor.formatContent st))
     = NoteFormData.title (NoteEditor.formData st)
  /\ NoteFormData.tags (NoteEditor.formData (NoteEditor.formatContent st))
     = NoteFormData.tags (NoteEditor.formData st)
  /\ NoteEditor.isRecording (NoteEditor.formatContent st)
     = NoteEditor.isRecording st
  /\ NoteEditor.newTag (NoteEditor.formatContent st) = NoteEditor.newTag st.
Proof.
  split; [|repeat split].
  simpl. unfold NoteEditor.cleanContent, Spec.normalize.
  rewrite dropEmpty_filter. reflexivity.
Qed.

(** C3 as stated fails: on the content ["a.  b"] the rejoined segments are
    ["a. b"], and the handler stores ["a. b."]. *)
Lemma formatContent_adds_period :
  NoteFormData.content
    (NoteEditor.formData
       (NoteEditor.formatContent
          (NoteEditor.onContentChange (lit "a.  b") NoteEditor.initial)))
  = lit "a. b."
  /\ Spec.normalize (lit "a.  b") = lit "a. b"
  /\ NoteFormData.content
       (NoteEditor.formData
          (NoteEditor.formatContent
             (NoteEditor.onContentChange (lit "a.  b") NoteEditor.initial)))
     <> Spec.normalize (lit "a.  b").
Proof.
  split; [reflexivity|]. split; [reflexivity|].
  vm_compute. discriminate.
Qed.

(** C9: on every list of captured results the transcript handler replaces
    the content of the draft by the segments joined, split on periods,
    trimmed, without the empty pieces and without the repetitions of a
    sentence already seen, rejoined with [". "]; the rest of the draft is
    kept.  The increments ["Hello."] and then ["Hello. World."] give the
    contents ["Hello"] and then ["Hello. World"], whether the second event
    carries the new segment alone or after the first. *)
Theorem onresult_replaces_content
    (results : list NoteEditor.SpeechRecognitionResult)
    (st : NoteEditor.State) :
  NoteFormData.content (NoteEditor.formData (NoteEditor.onresult results st))
  = Spec.transcriptContent
      (List.map (fun r => NoteEditor.transcript (NoteEditor.item0 r)) results)
  /\ NoteFormData.title (NoteEditor.formData (NoteEditor.onresult results st))
     = NoteFormData.title (NoteEditor.formData st)
  /\ NoteFormData.tags (NoteEditor.formData (NoteEditor.onresult results st))
     = NoteFormData.tags (NoteEditor.formData st)
  /\ NoteFormData.content
       (NoteEditor.formData
          (NoteEditor.onresult [Examples.segment "Hello."] st))
     = lit "Hello"
  /\ NoteFormData.content
       (NoteEditor.formData
          (NoteEditor.onresult [Examples.segment "Hello. World."]
             (NoteEditor.onresult [Examples.segment "Hello."] st)))
     = lit "Hello. World"
  /\ NoteFormData.content
       (NoteEditor.formData
          (NoteEditor.onresult
             [Examples.segment "Hello."; Examples.segment "Hello. World."]
             (NoteEditor.onresult [Examples.segment "Hello."] st)))
     = lit "Hello. World".
Proof.
  split; [|repeat split].
  simpl. unfold NoteEditor.cleanedTranscript, Spec.transcriptContent.
  rewrite filter_idx_dedupe. reflexivity.
Qed.

(** ** Sorting *)

Section SortFacts.
Context {A : Type}.
Variable cmp : A -> A -> Z.

Lemma insert_perm (x : A) (l : list A) :
  Permutation (insert cmp x l) (x :: l).
Proof.
  induction l as [|y l IH]; simpl; [apply Permutation_refl|].
  destruct (cmp x y <=? 0); [apply Permutation_refl|].
  eapply perm_trans; [apply perm_skip, IH | apply perm_swap].
Qed.

Lemma sort_perm (l : list A) : Permutation (sort cmp l) l.
Proof.
  induction l as [|x l IH]; simpl; [apply perm_nil|].
  eapply perm_trans; [apply insert_perm | apply perm_skip, IH].
Qed.

Lemma sort_In (l : list A) (x : A) : In x (sort cmp l) <-> In x l.
Proof.
  split; apply Permutation_in;
    [apply sort_perm | apply Permutation_sym, sort_perm].
Qed.

Lemma insert_HdRel (y x : A) (l : list A) :
  HdRel (ascending cmp) y l -> ascending cmp y x ->
  HdRel (ascending cmp) y (insert cmp x l).
Proof.
  intros Hl Hx. destruct l as [|z l]; simpl; [constructor; exact Hx|].
  destruct (cmp x z <=? 0); constructor; [exact Hx|].
  inversion Hl; assumption.
Qed.

(** Insertion keeps a list sorted as soon as the comparator does not
    put [x] after [y] and [y] after [x] at once, for the members [y]. *)
Lemma insert_sorted (x : A) (l : list A) :
  (forall y, In y l -> 0 < cmp x y -> cmp y x <= 0) ->
  Sorted (ascending cmp) l -> Sorted (ascending cmp) (insert cmp x l).
Proof.
  induction l as [|y l IH]; intros Hc Hs; simpl.
  - repeat constructor.
  - destruct (cmp x y <=? 0) eqn:E.
    + constructor; [exact Hs|]. constructor. apply Z.leb_le. exact E.
    + apply Z.leb_gt in E. inversion Hs as [|? ? Hs' Hd]; subst.
      constructor.
      * apply IH; [|exact Hs']. intros z Hz. apply Hc. right; exact Hz.
      * apply insert_HdRel; [exact Hd|]. apply Hc; [left; reflexivity|].
        exact E.
Qed.

Lemma sort_sorted (l : list A) :
  (forall a b, In a l -> In b l -> 0 < cmp a b -> cmp b a <= 0) ->
  Sorted (ascending cmp) (sort cmp l).
Proof.
  induction l as [|x l IH]; intros Hc; simpl; [constructor|].
  apply insert_sorted.
  - intros y Hy. apply Hc; [left; reflexivity|].
    right. apply sort_In. exact Hy.
  - apply IH. intros a b Ha Hb. apply Hc; right; assumption.
Qed.
End SortFacts.

Lemma Sorted_weaken {A : Type} (R R' : A -> A -> Prop) (l : list A) :
  (forall a b, R a b -> R' a b) -> Sorted R l -> Sorted R' l.
Proof.
  intros Himp Hs. induction Hs as [|x l Hs IH Hd]; constructor.
  - exact IH.
  - destruct Hd; constructor. apply Himp. assumption.
Qed.

Lemma compareNotes_by_title {P : Platform} (st : NoteList.State)
    (a b : Note.t) :
  NoteList.sortBy st = by_title ->
  NoteList.compareNotes st a b = localeCompare (Note.title a) (Note.title b).
Proof.
  intros Hkey. unfold NoteList.compareNotes. rewrite Hkey. reflexivity.
Qed.

(** C5, as the code has it: with the sort key [title] the visible notes
    are the filtered notes, each exactly once, in ascending order of
    [localeCompare] on the titles, the collation of the host.  The
    collation is asked to be consistent on the titles at hand: it never
    puts each of two titles after the other. *)
Theorem sortedNotes_by_title {P : Platform} (notes : list Note.t)
    (st : NoteList.State) :
  NoteList.sortBy st = by_title ->
  (forall a b,
     In a (NoteList.filteredNotes notes st) ->
     In b (NoteList.filteredNotes notes st) ->
     0 < localeCompare (Note.title a) (Note.title b) ->
     localeCompare (Note.title b) (Note.title a) <= 0) ->
  Sorted (fun a b => localeCompare (Note.title a) (Note.title b) <= 0)
    (NoteList.sortedNotes notes st)
  /\ Permutation (NoteList.sortedNotes notes st)
       (NoteList.filteredNotes notes st).
Proof.
  intros Hkey Hc. split; [|apply sort_perm].
  unfold NoteList.sortedNotes.
  apply (Sorted_weaken (ascending (NoteList.compareNotes st))).
  - intros a b. unfold ascending.
    rewrite (compareNotes_by_title st a b Hkey). tauto.
  - apply sort_sorted. intros a b Ha Hb.
    rewrite !(compareNotes_by_title st _ _ Hkey). apply Hc; assumption.
Qed.

Lemma ref_localeCompare_fruit (a b : Note.t) :
  In a Examples.fruit -> In b Examples.fruit ->
  0 < Reference.ref_localeCompare (Note.title a) (Note.title b) ->
  Reference.ref_localeCompare (Note.title b) (Note.title a) <= 0.
Proof.
  simpl. intros [<- | [<- | [<- | []]]] [<- | [<- | [<- | []]]];
    vm_compute; intros H; congruence.
Qed.

Lemma sortedNotes_by_title_witness :
  NoteList.sortBy (NoteList.mkState [] by_title None) = by_title
  /\ Sorted
       (fun a b =>
          Reference.ref_localeCompare (Note.title a) (Note.title b) <= 0)
       (NoteList.sortedNotes (P := Reference.ref_platform) Examples.fruit
          (NoteList.mkState [] by_title None)).
Proof.
  split; [reflexivity|].
  exact (proj1 (sortedNotes_by_title (P := Reference.ref_platform)
                  Examples.fruit (NoteList.mkState [] by_title None)
                  eq_refl ref_localeCompare_fruit)).
Defined.

(** C5 as stated fails: a collation is not the lexicographic order of the
    title strings.  Under the reference collation, which like the host's
    ranks letters before their case, the titles Banana, apple, Cherry come
    out as apple, Banana, Cherry, and that is not ascending in the
    lexicographic order, where every capital precedes every small
    letter. *)
Lemma title_order_not_lexicographic :
  List.map Note.title
    (NoteList.sortedNotes (P := Reference.ref_platform) Examples.fruit
       (NoteList.mkState [] by_title None))
  = [lit "apple"; lit "Banana"; lit "Cherry"]
  /\ ~ Sorted Spec.titleLe
         (NoteList.sortedNotes (P := Reference.ref_platform) Examples.fruit
            (NoteList.mkState [] by_title None)).
Proof.
  split; [reflexivity|].
  intros H. vm_compute NoteList.sortedNotes in H.
  inversion H as [|? ? _ Hd]; subst.
  inversion Hd as [|? ? Hle]; subst.
  vm_compute in Hle. apply Hle. reflexivity.
Qed.

(** Only when titles are compared by code units is the result the
    lexicographic one: Banana, Cherry, apple. *)
Lemma codeUnit_order_of_fruit :
  List.map Note.title
    (NoteList.sortedNotes (P := Reference.codeUnit_platform) Examples.fruit
       (NoteList.mkState [] by_title None))
  = [lit "Banana"; lit "Cherry"; lit "apple"].
Proof. reflexivity. Qed.

(** ** Filtering *)

Lemma includes_empty (s : str) : includes s [] = true.
Proof. destruct s; reflexivity. Qed.

Lemma filter_nil {A : Type} (f : A -> bool) (l : list A) :
  (forall x, In x l -> f x = false) -> List.filter f l = [].
Proof.
  induction l as [|x l IH]; simpl; intros H; [reflexivity|].
  rewrite H by (left; reflexivity). apply IH.
  intros y Hy. apply H. right; exact Hy.
Qed.

(** An empty search term matches every note, provided that lower-casing
    the empty string gives the empty string. *)
Lemma matchesSearch_empty {P : Platform} (st : NoteList.State)
    (note : Note.t) :
  NoteList.searchTerm st = [] -> toLowerCase [] = [] ->
  NoteList.matchesSearch st note = true.
Proof.
  intros Hterm Hlow. unfold NoteList.matchesSearch.
  rewrite Hterm, Hlow, includes_empty. reflexivity.
Qed.

Lemma matchesTag_selected {P : Platform} (st : NoteList.State)
    (tag : str) (note : Note.t) :
  NoteList.selectedTag st = Some tag -> In tag (Note.tags note) ->
  NoteList.matchesTag st note = true.
Proof.
  intros Hsel Hin. unfold NoteList.matchesTag. rewrite Hsel.
  apply arr_includes_In in Hin. rewrite Hin. apply orb_true_r.
Qed.

Lemma visible_iff {P : Platform} (notes : list Note.t)
    (st : NoteList.State) (x : Note.t) :
  In x (NoteList.sortedNotes notes st)
  <-> In x notes
      /\ NoteList.matchesSearch st x && NoteList.matchesTag st x = true.
Proof.
  unfold NoteList.sortedNotes. rewrite sort_In.
  unfold NoteList.filteredNotes. apply filter_In.
Qed.

(** C8, as the code has it: with a tag selected, the filter is the
    conjunction of the tag test and of the search test.
    - When the selected tag is not the empty string and no note carries
      it, the visible sequence is empty.
    - A note that carries the selected tag is visible exactly when it
      matches the search term.
    - In particular it is visible when the search term is empty. *)
Theorem filter_by_selected_tag {P : Platform} (notes : list Note.t)
    (st : NoteList.State) (tag : str) :
  NoteList.selectedTag st = Some tag ->
  (tag <> [] ->
   (forall n, In n notes -> ~ In tag (Note.tags n)) ->
   NoteList.sortedNotes notes st = [])
  /\ (forall x,
        In x notes -> In tag (Note.tags x) ->
        (In x (NoteList.sortedNotes notes st)
         <-> NoteList.matchesSearch st x = true))
  /\ (forall x,
        In x notes -> In tag (Note.tags x) ->
        NoteList.searchTerm st = [] -> toLowerCase [] = [] ->
        In x (NoteList.sortedNotes notes st)).
Proof.
  intros Hsel. split; [|split].
  - intros Hne Habsent. unfold NoteList.sortedNotes, NoteList.filteredNotes.
    rewrite filter_nil; [reflexivity|].
    intros n Hn. unfold NoteList.matchesTag. rewrite Hsel.
    destruct tag as [|c tag]; [congruence|]. simpl truthy. simpl negb.
    rewrite orb_false_l.
    specialize (Habsent n Hn). apply arr_includes_not_In in Habsent.
    rewrite Habsent. apply andb_false_r.
  - intros x Hx Htag. rewrite visible_iff.
    rewrite (matchesTag_selected st tag x Hsel Htag), andb_true_r. tauto.
  - intros x Hx Htag Hterm Hlow. apply visible_iff. split; [exact Hx|].
    rewrite (matchesTag_selected st tag x Hsel Htag).
    rewrite (matchesSearch_empty st x Hterm Hlow). reflexivity.
Qed.

Lemma filter_by_selected_tag_witness :
  NoteList.selectedTag (Examples.view "" "team") = Some (lit "team")
  /\ In Examples.retro
       (NoteList.sortedNotes (P := Reference.ref_platform)
          [Examples.standup; Examples.retro] (Examples.view "" "team")).
Proof.
  split; [reflexivity|].
  refine (proj2 (proj2 (filter_by_selected_tag (P := Reference.ref_platform)
                          [Examples.standup; Examples.retro]
                          (Examples.view "" "team") (lit "team") eq_refl))
            Examples.retro _ _ eq_refl eq_refl).
  - right; left; reflexivity.
  - right; left; reflexivity.
Defined.

(** C8 as stated fails on both counts.  A note that carries the selected
    tag is hidden by a search term that it does not match; and selecting
    the empty string, which no note carries, filters nothing, the empty
    string being falsy like [null]. *)
Lemma selected_tag_not_enough :
  In Examples.standup [Examples.standup; Examples.retro]
  /\ In (lit "meeting") (Note.tags Examples.standup)
  /\ ~ In Examples.standup
         (NoteList.sortedNotes (P := Reference.ref_platform)
            [Examples.standup; Examples.retro]
            (Examples.view "budget" "meeting"))
  /\ (forall n, In n [Examples.standup; Examples.retro] ->
                ~ In (lit "") (Note.tags n))
  /\ NoteList.sortedNotes (P := Reference.ref_platform)
       [Examples.standup; Examples.retro] (Examples.view "" "")
     = [Examples.standup; Examples.retro].
Proof.
  split; [left; reflexivity|]. split; [left; reflexivity|].
  split; [vm_compute; tauto|]. split; [|reflexivity].
  intros n [<- | [<- | []]]; vm_compute; intuition discriminate.
Qed.

(** ** Export *)

Lemma join_snoc (sep : str) (l : list str) (x : str) :
  join sep (l ++ [x])
  = match l with
    | [] => x
    | _ :: _ => join sep l ++ sep ++ x
    end.
Proof.
  induction l as [|a l IH]; [reflexivity|].
  destruct l as [|b l]; [reflexivity|].
  change (join sep ((a :: b :: l) ++ [x]))
    with (a ++ sep ++ join sep ((b :: l) ++ [x])).
  rewrite IH.
  change (join sep (a :: b :: l)) with (a ++ sep ++ join sep (b :: l)).
  rewrite <- !app_assoc. reflexivity.
Qed.

Lemma exportAll_block_rule {P : Platform} (note : Note.t) :
  NoteList.exportAll_block note
  = NoteList.exportNote_markdown note ++ Spec.ruleAfter.
Proof.
  unfold NoteList.exportAll_block, NoteList.exportNote_markdown,
    Spec.ruleAfter, Spec.rule.
  rewrite <- !app_assoc. reflexivity.
Qed.

Lemma join_blocks_end {P : Platform} (l : list Note.t) :
  match l with
  | [] => join NoteList.nl (List.map NoteList.exportAll_block l) = []
  | _ :: _ =>
      exists front,
        join NoteList.nl (List.map NoteList.exportAll_block l)
        = front ++ Spec.ruleAfter
  end.
Proof.
  destruct l as [|a l']; [reflexivity|].
  destruct (exists_last (l := a :: l')) as (l & x & ->); [discriminate|].
  rewrite map_app. simpl List.map. rewrite join_snoc, exportAll_block_rule.
  destruct (List.map NoteList.exportAll_block l) as [|b bs].
  - eexists. reflexivity.
  - eexists. rewrite !app_assoc. reflexivity.
Qed.

(** C4, as the code has it: the payload of the export of all notes is made
    of one block per visible note, in the visible order; each block is the
    Markdown of the export of one note followed by a blank line, the rule
    [---] and a blank line, and consecutive blocks are joined by one more
    line break.  The rule thus closes every block, the last one too: a
    payload that is not empty ends with it.  The file is named
    [meeting_notes_], then the part of the ISO form of the current time
    before its [T], then [.md]. *)
Theorem exportAllNotes_payload {P : Platform} (notes : list Note.t)
    (st : NoteList.State) (now : Z) :
  NoteList.payload (NoteList.exportAllNotes notes st now)
  = join NoteList.nl
      (List.map (fun note => NoteList.exportNote_markdown note ++ Spec.ruleAfter)
         (NoteList.sortedNotes notes st))
  /\ match NoteList.sortedNotes notes st with
     | [] => NoteList.payload (NoteList.exportAllNotes notes st now) = []
     | _ :: _ =>
         exists front,
           NoteList.payload (NoteList.exportAllNotes notes st now)
           = front ++ Spec.ruleAfter
     end
  /\ NoteList.filename (NoteList.exportAllNotes notes st now)
     = lit "meeting_notes_" ++ hd [] (split 84%N (toISOString now))
       ++ lit ".md"
  /\ NoteList.mime (NoteList.exportAllNotes notes st now)
     = lit "text/markdown".
Proof.
  split; [|split; [|split; reflexivity]].
  - simpl. unfold NoteList.exportAll_markdown. f_equal.
    apply map_ext. intros note. apply exportAll_block_rule.
  - simpl. unfold NoteList.exportAll_markdown.
    apply (join_blocks_end (NoteList.sortedNotes notes st)).
Qed.

(** C4 as stated fails: with one visible note there are no consecutive
    blocks, so a rule that only separates would leave the payload equal to
    the Markdown of that note, whatever the separator; the code appends
    the rule.  On the reference platform the file exported at
    2023-11-14T22:13:20Z is [meeting_notes_2023-11-14.md]. *)
Lemma exportAllNotes_rule_terminates :
  NoteList.sortedNotes (P := Reference.ref_platform) [Examples.standup]
    NoteList.initial = [Examples.standup]
  /\ ~ (exists sep,
          NoteList.payload
            (NoteList.exportAllNotes (P := Reference.ref_platform)
               [Examples.standup] NoteList.initial Examples.t0)
          = Spec.exportAll (P := Reference.ref_platform) sep
              [Examples.standup])
  /\ NoteList.payload
       (NoteList.exportAllNotes (P := Reference.ref_platform)
          [Examples.standup] NoteList.initial Examples.t0)
     = NoteList.exportNote_markdown (P := Reference.ref_platform)
         Examples.standup ++ Spec.ruleAfter
  /\ NoteList.filename
       (NoteList.exportAllNotes (P := Reference.ref_platform)
          [Examples.standup] NoteList.initial Examples.t0)
     = lit "meeting_notes_2023-11-14.md".
Proof.
  split; [reflexivity|]. split; [|split; reflexivity].
  intros [sep H]. vm_compute in H. discriminate H.
Qed.

(** ** Persistence *)

Lemma newDate_reloaded {P : Platform} (d : DateValue) :
  (forall t, d = DateObj t -> Date_parse (toISOString t) = Some t) ->
  App.newDate (DateStr (App.toJSON d)) = App.newDate d.
Proof.
  intros H. destruct d as [t | s]; simpl; [|reflexivity].
  apply H. reflexivity.
Qed.

(** C6, as the code has it: what the start-up reads back from the slot
    written after a mutation is the collection in the same order, every
    note with its id, title, content, favorite flag and tags, and with
    timestamps that are the strings which [JSON.stringify] printed: the
    load does not parse them.  Every use site builds [new Date(...)] from
    the field, and that date has the time value of the saved timestamp
    whenever [Date.parse] reads back what [toISOString] printed for it. *)
Theorem load_keeps_date_strings {P : Platform} (st : App.State) :
  (forall n t,
     In n (App.notes st) ->
     Note.createdAt n = DateObj t \/ Note.updatedAt n = DateObj t ->
     Date_parse (toISOString t) = Some t) ->
  List.length (App.notes (App.init (App.persist st)))
  = List.length (App.notes st)
  /\ forall (i : nat) (n : Note.t),
       nth_error (App.notes st) i = Some n ->
       exists n',
         nth_error (App.notes (App.init (App.persist st))) i = Some n'
         /\ Note.id n' = Note.id n
         /\ Note.title n' = Note.title n
         /\ Note.content n' = Note.content n
         /\ Note.favorite n' = Note.favorite n
         /\ Note.tags n' = Note.tags n
         /\ Note.createdAt n' = DateStr (App.toJSON (Note.createdAt n))
         /\ Note.updatedAt n' = DateStr (App.toJSON (Note.updatedAt n))
         /\ App.newDate (Note.createdAt n') = App.newDate (Note.createdAt n)
         /\ App.newDate (Note.updatedAt n') = App.newDate (Note.updatedAt n).
Proof.
  intros Hparse. simpl. split; [rewrite !length_map; reflexivity|].
  intros i n Hn. rewrite map_map, nth_error_map, Hn. simpl.
  eexists. split; [reflexivity|]. simpl.
  repeat (split; [reflexivity|]).
  apply nth_error_In in Hn.
  split; apply newDate_reloaded; intros t Ht;
    apply (Hparse n t Hn); [left | right]; exact Ht.
Qed.

Lemma ref_parse_two_notes (n : Note.t) (t : Z) :
  In n (App.notes Examples.two_notes) ->
  Note.createdAt n = DateObj t \/ Note.updatedAt n = DateObj t ->
  Dates.ref_Date_parse (Dates.ref_toISOString t) = Some t.
Proof.
  simpl. intros [<- | [<- | []]] [[= <-] | [= <-]]; vm_compute; reflexivity.
Qed.

Lemma load_keeps_date_strings_witness :
  List.length
    (App.notes (App.init (App.persist (P := Reference.ref_platform)
                            Examples.two_notes)))
  = List.length (App.notes Examples.two_notes).
Proof.
  exact (proj1 (load_keeps_date_strings (P := Reference.ref_platform)
                  Examples.two_notes ref_parse_two_notes)).
Defined.

(** C6 as stated fails: a note saved at 2023-11-14T22:13:20Z holds, once
    loaded, the string of that instant in both timestamp fields, not a
    date value, and the loaded collection differs from the saved one. *)
Lemma load_does_not_parse_dates :
  List.map Note.createdAt (App.notes Examples.two_notes)
  = [DateObj Examples.t0; DateObj Examples.t0]
  /\ List.map Note.createdAt
       (App.notes (App.init (App.persist (P := Reference.ref_platform)
                               Examples.two_notes)))
     = [DateStr (lit "2023-11-14T22:13:20.000Z");
        DateStr (lit "2023-11-14T22:13:20.000Z")]
  /\ List.map Note.updatedAt
       (App.notes (App.init (App.persist (P := Reference.ref_platform)
                               Examples.two_notes)))
     = [DateStr (lit "2023-11-14T22:13:20.000Z");
        DateStr (lit "2023-11-14T22:13:20.000Z")]
  /\ App.notes (App.init (App.persist (P := Reference.ref_platform)
                            Examples.two_notes))
     <> App.notes Examples.two_notes.
Proof.
  split; [reflexivity|]. split; [reflexivity|]. split; [reflexivity|].
  vm_compute. discriminate.
Qed.


(** * Further properties of the components *)

(** ** The coordinator: deletion, update, unique ids *)

Lemma NoDup_map_filter {A B : Type} (f : A -> B) (p : A -> bool)
    (l : list A) :
  NoDup (List.map f l) -> NoDup (List.map f (List.filter p l)).
Proof.
  induction l as [|x l IH]; simpl; intros H; [constructor|].
  inversion H as [|? ? Hx Hl]; subst.
  destruct (p x); simpl; [|apply IH; exact Hl].
  constructor; [|apply IH; exact Hl].
  intros Hin. apply Hx. apply in_map_iff in Hin.
  destruct Hin as (y & Hy & Hin). apply filter_In in Hin.
  rewrite <- Hy. apply in_map. tauto.
Qed.

Lemma NoDup_map_inj {A B : Type} (f : A -> B) (l : list A) (a b : A) :
  NoDup (List.map f l) -> In a l -> In b l -> f a = f b -> a = b.
Proof.
  induction l as [|x l IH]; simpl; intros H Ha Hb E; [tauto|].
  inversion H as [|? ? Hx Hl]; subst.
  destruct Ha as [-> | Ha], Hb as [-> | Hb].
  - reflexivity.
  - exfalso. apply Hx. rewrite E. apply in_map. exact Hb.
  - exfalso. apply Hx. rewrite <- E. apply in_map. exact Ha.
  - apply IH; assumption.
Qed.

(** The update branch of the save leaves the ids where they are. *)
Lemma update_ids (sel : Note.t) (data : NoteFormData.t) (now : Z)
    (l : list Note.t) :
  List.map Note.id
    (List.map (fun note =>
                 if str_eqb (Note.id note) (Note.id sel)
                 then App.merge note data now else note) l)
  = List.map Note.id l.
Proof.
  rewrite map_map. apply map_ext. intros n.
  destruct (str_eqb (Note.id n) (Note.id sel)); reflexivity.
Qed.


(** In a collection whose ids are pairwise distinct, the confirmed
    deletion of an id that is present shortens the collection by exactly
    one note. *)
Theorem deleteNote_size (st : App.State) (id : str) :
  NoDup (List.map Note.id (App.notes st)) ->
  In id (List.map Note.id (App.notes st)) ->
  S (List.length (App.notes (App.handleDeleteNote true id st)))
  = List.length (App.notes st).
Proof.
  destruct st as [l sel]. simpl. induction l as [|n l IH]; simpl.
  - tauto.
  - intros Hnd Hin. inversion Hnd as [|? ? Hn Hl]; subst.
    destruct (str_eqb (Note.id n) id) eqn:E; simpl.
    + apply str_eqb_eq in E. f_equal. f_equal.
      apply filter_keeps_all. intros m Hm. apply negb_true_iff.
      apply str_eqb_neq. intros E'. apply Hn. rewrite E, <- E'.
      apply in_map. exact Hm.
    + f_equal. apply IH; [exact Hl|].
      apply str_eqb_neq in E. destruct Hin as [Hin | Hin]; tauto.
Qed.

Lemma deleteNote_size_witness :
  S (List.length
       (App.notes (App.handleDeleteNote true (lit "n-1") Examples.two_notes)))
  = List.length (App.notes Examples.two_notes).
Proof.
  refine (deleteNote_size Examples.two_notes (lit "n-1") _ _).
  - simpl. constructor.
    + intros [E | []]. vm_compute in E. discriminate E.
    + constructor; [intros [] | constructor].
  - left. reflexivity.
Defined.

(** Pairwise distinct ids stay pairwise distinct under every mutation of
    the coordinator: the toggle of a favorite, a deletion whatever the
    answer to the confirmation, an update, and a creation whose generated
    id is not yet in use. *)
Theorem ids_stay_distinct (st : App.State) :
  NoDup (List.map Note.id (App.notes st)) ->
  (forall id,
     NoDup (List.map Note.id (App.notes (App.handleToggleFavorite id st))))
  /\ (forall confirmed id,
        NoDup (List.map Note.id
                 (App.notes (App.handleDeleteNote confirmed id st))))
  /\ (forall uuid now now' data,
        (App.selectedNote st = None ->
         ~ In uuid (List.map Note.id (App.notes st))) ->
        NoDup (List.map Note.id
                 (App.notes (App.handleSaveNote uuid now now' data st)))).
Proof.
  intros Hnd. split; [|split].
  - intros id. simpl. rewrite map_map.
    erewrite map_ext; [exact Hnd|]. intros n. simpl.
    destruct (str_eqb (Note.id n) id); reflexivity.
  - intros [|] id; simpl; [|exact Hnd]. apply NoDup_map_filter. exact Hnd.
  - intros uuid now now' data Hfresh. unfold App.handleSaveNote.
    destruct (App.selectedNote st) as [sel|]; simpl.
    + rewrite update_ids. exact Hnd.
    + constructor; [apply Hfresh; reflexivity | exact Hnd].
Qed.

Lemma ids_stay_distinct_witness :
  NoDup (List.map Note.id
           (App.notes (App.handleSaveNote (lit "n-3") 1 2
                         Examples.blank_draft Examples.two_notes))).
Proof.
  assert (H : NoDup (List.map Note.id (App.notes Examples.two_notes))).
  { simpl. constructor.
    - intros [E | []]. vm_compute in E. discriminate E.
    - constructor; [intros [] | constructor]. }
  refine (proj2 (proj2 (ids_stay_distinct Examples.two_notes H))
            (lit "n-3") 1 2 Examples.blank_draft _).
  intros _ [E | [E | []]]; vm_compute in E; discriminate E.
Defined.

(** Saving while a note is selected keeps the length and the order of the
    collection, the id, the creation time and the favorite flag of every
    note, and every note whose id differs from the selected one as it is;
    the notes with the selected id take the title, the content and the
    tags of the draft and the current time as their update time; the
    selection is cleared. *)
Theorem saveNote_update_frame (st : App.State) (sel : Note.t)
    (data : NoteFormData.t) (uuid : str) (now now' : Z) :
  App.selectedNote st = Some sel ->
  List.map Note.id (App.notes (App.handleSaveNote uuid now now' data st))
  = List.map Note.id (App.notes st)
  /\ List.map Note.createdAt
       (App.notes (App.handleSaveNote uuid now now' data st))
     = List.map Note.createdAt (App.notes st)
  /\ List.map Note.favorite
       (App.notes (App.handleSaveNote uuid now now' data st))
     = List.map Note.favorite (App.notes st)
  /\ (forall (i : nat) (n : Note.t),
        nth_error (App.notes st) i = Some n ->
        nth_error (App.notes (App.handleSaveNote uuid now now' data st)) i
        = Some (if str_eqb (Note.id n) (Note.id sel)
                then {| Note.id := Note.id n;
                        Note.title := NoteFormData.title data;
                        Note.content := NoteFormData.content data;
                        Note.createdAt := Note.createdAt n;
                        Note.updatedAt := DateObj now;
                        Note.favorite := Note.favorite n;
                        Note.tags := NoteFormData.tags data |}
                else n))
  /\ App.selectedNote (App.handleSaveNote uuid now now' data st) = None.
Proof.
  intros Hsel. unfold App.handleSaveNote. rewrite Hsel. simpl.
  split; [apply update_ids|].
  split; [|split; [|split; [|reflexivity]]].
  - rewrite map_map. apply map_ext. intros n.
    destruct (str_eqb (Note.id n) (Note.id sel)); reflexivity.
  - rewrite map_map. apply map_ext. intros n.
    destruct (str_eqb (Note.id n) (Note.id sel)); reflexivity.
  - intros i n Hn. rewrite nth_error_map, Hn. simpl.
    destruct (str_eqb (Note.id n) (Note.id sel)); reflexivity.
Qed.

Lemma saveNote_update_frame_witness :
  List.map Note.id
    (App.notes (App.handleSaveNote (lit "u-1") 1 2 Examples.blank_draft
                  (App.setSelectedNote (Some Examples.retro)
                     Examples.two_notes)))
  = List.map Note.id
      (App.notes (App.setSelectedNote (Some Examples.retro)
                    Examples.two_notes)).
Proof.
  exact (proj1 (saveNote_update_frame
                  (App.setSelectedNote (Some Examples.retro)
                     Examples.two_notes)
                  Examples.retro Examples.blank_draft (lit "u-1") 1 2
                  eq_refl)).
Defined.

(** Creating a note under an unused id and deleting that id again gives
    back the state from before the creation. *)
Theorem create_then_delete (st : App.State) (data : NoteFormData.t)
    (uuid : str) (now now' : Z) :
  App.selectedNote st = None ->
  ~ In uuid (List.map Note.id (App.notes st)) ->
  App.handleDeleteNote true uuid (App.handleSaveNote uuid now now' data st)
  = st.
Proof.
  intros Hsel Hfresh. destruct st as [l sel]. simpl in *. subst sel.
  unfold App.handleSaveNote, App.handleDeleteNote. simpl.
  rewrite str_eqb_refl. simpl. f_equal.
  apply filter_keeps_all. intros n Hn.
  rewrite (id_absent uuid l n Hfresh Hn). reflexivity.
Qed.

Lemma create_then_delete_witness :
  App.handleDeleteNote true (lit "n-3")
    (App.handleSaveNote (lit "n-3") 1 2 Examples.blank_draft
       Examples.two_notes)
  = Examples.two_notes.
Proof.
  refine (create_then_delete Examples.two_notes Examples.blank_draft
            (lit "n-3") 1 2 eq_refl _).
  intros [E | [E | []]]; vm_compute in E; discriminate E.
Defined.

(** ** Persistence and the views *)

Lemma stringify_parse {P : Platform} (s : App.Stored.t) :
  App.stringify_note (App.parse_note s) = s.
Proof. destruct s; reflexivity. Qed.

(** The persist effect that follows the first render writes back what the
    start-up has read: the snapshot of the slot as it is, and the empty
    array when the slot was absent.  A second load therefore sees the same
    notes as the first. *)
Theorem persist_after_init {P : Platform} (slot : App.localStorage) :
  App.persist (App.init slot)
  = Some (match slot with Some saved => saved | None => [] end)
  /\ App.init (App.persist (App.init slot)) = App.init slot.
Proof.
  assert (H : App.persist (App.init slot)
              = Some (match slot with Some saved => saved | None => [] end)).
  { destruct slot as [saved|]; [|reflexivity].
    unfold App.persist, App.init. simpl. f_equal. rewrite map_map.
    apply map_fixes. intros s _. apply stringify_parse. }
  split; [exact H|]. rewrite H. destruct slot; reflexivity.
Qed.

Lemma filter_map_commute {A B : Type} (f : A -> B) (p : A -> bool)
    (q : B -> bool) (l : list A) :
  (forall x, q (f x) = p x) ->
  List.filter q (List.map f l) = List.map f (List.filter p l).
Proof.
  intros H. induction l as [|x l IH]; simpl; [reflexivity|].
  rewrite H. destruct (p x); simpl; rewrite IH; reflexivity.
Qed.

Lemma insert_map_commute {A B : Type} (f : A -> B) (cmp : A -> A -> Z)
    (cmp' : B -> B -> Z) (x : A) (l : list A) :
  (forall y, In y l -> cmp' (f x) (f y) = cmp x y) ->
  insert cmp' (f x) (List.map f l) = List.map f (insert cmp x l).
Proof.
  induction l as [|y l IH]; simpl; intros H; [reflexivity|].
  rewrite H by (left; reflexivity).
  destruct (cmp x y <=? 0); simpl; [reflexivity|].
  rewrite IH; [reflexivity|]. intros z Hz. apply H. right; exact Hz.
Qed.

Lemma sort_map_commute {A B : Type} (f : A -> B) (cmp : A -> A -> Z)
    (cmp' : B -> B -> Z) (l : list A) :
  (forall x y, In x l -> In y l -> cmp' (f x) (f y) = cmp x y) ->
  sort cmp' (List.map f l) = List.map f (sort cmp l).
Proof.
  induction l as [|x l IH]; simpl; intros H; [reflexivity|].
  rewrite IH by (intros a b Ha Hb; apply H; right; assumption).
  apply insert_map_commute. intros y Hy. apply H; [left; reflexivity|].
  right. apply sort_In in Hy. exact Hy.
Qed.

(** The list view does not see a reload.  Whatever the search term, the
    selected tag and the sort key, the visible sequence computed from the
    reloaded collection is the reload of the visible sequence computed
    before, provided that [Date.parse] reads back the update times that
    [toISOString] printed. *)
Theorem visible_after_reload {P : Platform} (st : App.State)
    (view : NoteList.State) :
  (forall n t,
     In n (App.notes st) -> Note.updatedAt n = DateObj t ->
     Date_parse (toISOString t) = Some t) ->
  NoteList.sortedNotes (App.notes (App.init (App.persist st))) view
  = List.map (fun n => App.parse_note (App.stringify_note n))
      (NoteList.sortedNotes (App.notes st) view).
Proof.
  intros Hparse. unfold NoteList.sortedNotes, NoteList.filteredNotes.
  simpl App.notes. rewrite map_map.
  rewrite (filter_map_commute
             (fun n => App.parse_note (App.stringify_note n))
             (fun note => NoteList.matchesSearch view note
                          && NoteList.matchesTag view note))
    by reflexivity.
  apply sort_map_commute. intros a b Ha Hb.
  apply filter_In in Ha. apply filter_In in Hb.
  unfold NoteList.compareNotes. destruct (NoteList.sortBy view);
    [|reflexivity|reflexivity].
  simpl Note.updatedAt.
  rewrite !newDate_reloaded; [reflexivity| |].
  - intros t Ht. apply (Hparse a t); tauto.
  - intros t Ht. apply (Hparse b t); tauto.
Qed.

Lemma visible_after_reload_witness :
  NoteList.sortedNotes (P := Reference.ref_platform)
    (App.notes (App.init (App.persist (P := Reference.ref_platform)
                            Examples.two_notes)))
    (Examples.view "" "team")
  = List.map (fun n => App.parse_note
                         (App.stringify_note (P := Reference.ref_platform) n))
      (NoteList.sortedNotes (P := Reference.ref_platform)
         (App.notes Examples.two_notes) (Examples.view "" "team")).
Proof.
  refine (visible_after_reload (P := Reference.ref_platform)
            Examples.two_notes (Examples.view "" "team") _).
  simpl. intros n t [<- | [<- | []]] [= <-]; vm_compute; reflexivity.
Defined.

(** ** The list view: orders *)

Lemma compareNotes_by_favorite {P : Platform} (st : NoteList.State)
    (a b : Note.t) :
  NoteList.sortBy st = by_favorite ->
  NoteList.compareNotes st a b
  = (if Note.favorite b then 1 else 0) - (if Note.favorite a then 1 else 0).
Proof.
  intros Hkey. unfold NoteList.compareNotes. rewrite Hkey. reflexivity.
Qed.

(** Under the favorite key a favorite goes to the front, and any other
    note goes behind the favorites and before the rest. *)
Lemma insert_by_favorite {P : Platform} (st : NoteList.State) (x : Note.t)
    (favs rest : list Note.t) :
  NoteList.sortBy st = by_favorite ->
  Forall (fun n => Note.favorite n = true) favs ->
  Forall (fun n => Note.favorite n = false) rest ->
  insert (NoteList.compareNotes st) x (favs ++ rest)
  = if Note.favorite x then x :: favs ++ rest else favs ++ x :: rest.
Proof.
  intros Hkey Hf Hr. induction Hf as [|y favs Hy Hf IH]; simpl.
  - destruct rest as [|y rest]; simpl.
    + destruct (Note.favorite x); reflexivity.
    + rewrite (compareNotes_by_favorite st x y Hkey).
      inversion Hr as [|? ? Hy _]; subst. rewrite Hy.
      destruct (Note.favorite x); reflexivity.
  - rewrite (compareNotes_by_favorite st x y Hkey), Hy.
    destruct (Note.favorite x) eqn:Ex; simpl; [reflexivity|].
    rewrite IH. reflexivity.
Qed.

Lemma Forall_filter {A : Type} (p : A -> bool) (l : list A) :
  Forall (fun x => p x = true) (List.filter p l).
Proof.
  apply Forall_forall. intros x Hx. apply filter_In in Hx. tauto.
Qed.

(** With the sort key [favorite] the visible sequence is the favorites
    among the filtered notes followed by the other filtered notes, each
    group in the order of the collection. *)
Theorem sortedNotes_by_favorite {P : Platform} (notes : list Note.t)
    (st : NoteList.State) :
  NoteList.sortBy st = by_favorite ->
  NoteList.sortedNotes notes st
  = List.filter Note.favorite (NoteList.filteredNotes notes st)
    ++ List.filter (fun n => negb (Note.favorite n))
         (NoteList.filteredNotes notes st).
Proof.
  intros Hkey. unfold NoteList.sortedNotes.
  induction (NoteList.filteredNotes notes st) as [|x l IH]; [reflexivity|].
  simpl sort. rewrite IH.
  rewrite (insert_by_favorite st x _ _ Hkey).
  - simpl. destruct (Note.favorite x); reflexivity.
  - apply Forall_filter.
  - pose proof (Forall_filter (fun n => negb (Note.favorite n)) l) as H.
    eapply Forall_impl; [|exact H]. intros n Hn.
    apply negb_true_iff. exact Hn.
Qed.

Lemma sortedNotes_by_favorite_witness :
  NoteList.sortedNotes (P := Reference.ref_platform)
    (App.notes (App.handleToggleFavorite (lit "n-2") Examples.two_notes))
    (NoteList.mkState [] by_favorite None)
  = List.filter Note.favorite
      (NoteList.filteredNotes (P := Reference.ref_platform)
         (App.notes (App.handleToggleFavorite (lit "n-2")
                       Examples.two_notes))
         (NoteList.mkState [] by_favorite None))
    ++ List.filter (fun n => negb (Note.favorite n))
         (NoteList.filteredNotes (P := Reference.ref_platform)
            (App.notes (App.handleToggleFavorite (lit "n-2")
                          Examples.two_notes))
            (NoteList.mkState [] by_favorite None)).
Proof.
  exact (sortedNotes_by_favorite (P := Reference.ref_platform)
           (App.notes (App.handleToggleFavorite (lit "n-2")
                         Examples.two_notes))
           (NoteList.mkState [] by_favorite None) eq_refl).
Defined.

Lemma Sorted_weaken_In {A : Type} (R R' : A -> A -> Prop) (l : list A) :
  (forall a b, In a l -> In b l -> R a b -> R' a b) ->
  Sorted R l -> Sorted R' l.
Proof.
  intros Himp Hs. induction Hs as [|x l Hs IH Hd]; constructor.
  - apply IH. intros a b Ha Hb. apply Himp; right; assumption.
  - destruct Hd as [|y l Hxy]; constructor.
    apply Himp; [left; reflexivity | right; left; reflexivity | exact Hxy].
Qed.

(** With the sort key [date], the default, and update times that all
    denote a date, the visible sequence holds the filtered notes, each
    once, and every note in it was updated no earlier than all the notes
    after it. *)
Theorem sortedNotes_by_date {P : Platform} (notes : list Note.t)
    (st : NoteList.State) :
  NoteList.sortBy st = by_date ->
  (forall n, In n (NoteList.filteredNotes notes st) ->
             App.newDate (Note.updatedAt n) <> None) ->
  StronglySorted
    (fun a b =>
       match App.newDate (Note.updatedAt a),
             App.newDate (Note.updatedAt b) with
       | Some ta, Some tb => tb <= ta
       | _, _ => False
       end)
    (NoteList.sortedNotes notes st)
  /\ Permutation (NoteList.sortedNotes notes st)
       (NoteList.filteredNotes notes st).
Proof.
  intros Hkey Hvalid. split; [|apply sort_perm].
  apply Sorted_StronglySorted.
  - intros a b c. destruct (App.newDate (Note.updatedAt a)),
      (App.newDate (Note.updatedAt b)), (App.newDate (Note.updatedAt c));
      try tauto. lia.
  - unfold NoteList.sortedNotes.
    apply (Sorted_weaken_In (ascending (NoteList.compareNotes st))).
    + intros a b Ha Hb. apply sort_In in Ha. apply sort_In in Hb.
      apply Hvalid in Ha. apply Hvalid in Hb.
      unfold ascending, NoteList.compareNotes. rewrite Hkey.
      destruct (App.newDate (Note.updatedAt a)),
        (App.newDate (Note.updatedAt b)); try congruence. lia.
    + apply sort_sorted. intros a b _ _.
      unfold NoteList.compareNotes. rewrite Hkey.
      destruct (App.newDate (Note.updatedAt a)),
        (App.newDate (Note.updatedAt b)); lia.
Qed.

Lemma sortedNotes_by_date_witness :
  Permutation
    (NoteList.sortedNotes (P := Reference.ref_platform)
       (App.notes Examples.two_notes) NoteList.initial)
    (NoteList.filteredNotes (P := Reference.ref_platform)
       (App.notes Examples.two_notes) NoteList.initial).
Proof.
  refine (proj2 (sortedNotes_by_date (P := Reference.ref_platform)
                   (App.notes Examples.two_notes) NoteList.initial
                   eq_refl _)).
  intros n [<- | [<- | []]]; vm_compute; discriminate.
Defined.

(** ** The list view: tag buttons, tag filter, file names *)

Lemma distinct_In (l seen : list str) (x : str) :
  In x (distinct seen l) <-> In x l /\ ~ In x seen.
Proof.
  revert seen. induction l as [|y l IH]; intros seen; simpl; [tauto|].
  destruct (arr_includes seen y) eqn:E.
  - apply arr_includes_In in E. rewrite IH. split.
    + tauto.
    + intros [[-> | H] Hn]; tauto.
  - apply arr_includes_not_In in E. simpl. rewrite IH. simpl.
    destruct (str_eqb y x) eqn:Eyx.
    + apply str_eqb_eq in Eyx. subst. tauto.
    + apply str_eqb_neq in Eyx. tauto.
Qed.

Lemma distinct_NoDup (l seen : list str) : NoDup (distinct seen l).
Proof.
  revert seen. induction l as [|y l IH]; intros seen; simpl; [constructor|].
  destruct (arr_includes seen y); [apply IH|].
  constructor; [|apply IH].
  rewrite distinct_In. simpl. tauto.
Qed.

Lemma codeUnitCompare_consistent (a b : str) :
  0 < Reference.codeUnitCompare a b -> Reference.codeUnitCompare b a <= 0.
Proof.
  revert b. induction a as [|x a IH]; intros [|y b]; simpl; try lia.
  destruct (x <? y)%N eqn:Exy; [lia|].
  destruct (y <? x)%N eqn:Eyx; [lia|]. apply IH.
Qed.

(** The tag buttons show every tag carried by some note, each once, in
    ascending order of their code units, and nothing else. *)
Theorem allTags_distinct_sorted (notes : list Note.t) :
  (forall tag,
     In tag (NoteList.allTags notes)
     <-> exists n, In n notes /\ In tag (Note.tags n))
  /\ NoDup (NoteList.allTags notes)
  /\ Sorted (fun a b => Reference.codeUnitCompare a b <= 0)
       (NoteList.allTags notes).
Proof.
  unfold NoteList.allTags. split; [|split].
  - intros tag. rewrite sort_In, distinct_In, in_flat_map. simpl. tauto.
  - eapply Permutation_NoDup;
      [apply Permutation_sym, sort_perm | apply distinct_NoDup].
  - apply (sort_sorted Reference.codeUnitCompare).
    intros a b _ _. apply codeUnitCompare_consistent.
Qed.

Lemma onTagClick_unselected (st : NoteList.State) (tag : str) :
  NoteList.selectedTag st = None ->
  NoteList.selectedTag (NoteList.onTagClick st tag) = Some tag
  /\ NoteList.selectedTag
       (NoteList.onTagClick (NoteList.onTagClick st tag) tag) = None.
Proof.
  intros H. unfold NoteList.onTagClick. simpl. rewrite H. simpl.
  rewrite str_eqb_refl. split; reflexivity.
Qed.

(** Starting with no tag selected and an empty search box, a click on the
    button of a tag shows exactly the notes that carry the tag, and a
    second click on the same button shows all notes again.  The platform
    is only asked to lower-case the empty string to itself. *)
Theorem tag_button_filters {P : Platform} (notes : list Note.t)
    (st : NoteList.State) (tag : str) :
  NoteList.selectedTag st = None ->
  NoteList.searchTerm st = [] ->
  toLowerCase [] = [] ->
  tag <> [] ->
  (forall x,
     In x (NoteList.sortedNotes notes (NoteList.onTagClick st tag))
     <-> In x notes /\ In tag (Note.tags x))
  /\ (forall x,
        In x (NoteList.sortedNotes notes
                (NoteList.onTagClick (NoteList.onTagClick st tag) tag))
        <-> In x notes).
Proof.
  intros Hsel Hterm Hlow Hne.
  destruct (onTagClick_unselected st tag Hsel) as [H1 H2].
  split; intros x; rewrite visible_iff.
  - rewrite matchesSearch_empty by (simpl; assumption).
    unfold NoteList.matchesTag. rewrite H1.
    destruct tag as [|c tag]; [congruence|]. simpl.
    rewrite arr_includes_In. tauto.
  - rewrite matchesSearch_empty by (simpl; assumption).
    unfold NoteList.matchesTag. rewrite H2. simpl. tauto.
Qed.

Lemma tag_button_filters_witness :
  In Examples.retro
    (NoteList.sortedNotes (P := Reference.ref_platform)
       (App.notes Examples.two_notes)
       (NoteList.onTagClick NoteList.initial (lit "team"))).
Proof.
  assert (Hne : lit "team" <> []) by discriminate.
  apply (proj1 (tag_button_filters (P := Reference.ref_platform)
                  (App.notes Examples.two_notes) NoteList.initial
                  (lit "team") eq_refl eq_refl eq_refl Hne)).
  split; right; left; reflexivity.
Defined.

Lemma slug_unit (c : char) :
  let d := if Reference.isUpper c then (c + 32)%N
           else if Reference.isLower c || Reference.isDigit c then c
           else 95%N in
  (Reference.isLower d || Reference.isDigit d || (d =? 95)%N = true)
  /\ (if Reference.isUpper d then (d + 32)%N
      else if Reference.isLower d || Reference.isDigit d then d
      else 95%N) = d.
Proof.
  cbv zeta. unfold Reference.isUpper, Reference.isLower, Reference.isDigit.
  destruct (65 <=? c)%N eqn:E1, (c <=? 90)%N eqn:E2,
    (97 <=? c)%N eqn:E3, (c <=? 122)%N eqn:E4,
    (48 <=? c)%N eqn:E5, (c <=? 57)%N eqn:E6; simpl;
    rewrite ?N.leb_le, ?N.leb_gt in *; try lia;
    repeat match goal with
           | |- context [(?a <=? ?b)%N] =>
               let E := fresh "E" in
               destruct (a <=? b)%N eqn:E;
               rewrite ?N.leb_le, ?N.leb_gt in E; try lia
           | |- context [(?a =? ?b)%N] =>
               let E := fresh "E" in
               destruct (a =? b)%N eqn:E;
               rewrite ?N.eqb_eq, ?N.eqb_neq in E; try lia
           end; simpl; auto.
Qed.

(** The name of the file of an exported note is as long as the title plus
    the extension, and before the extension it holds only lower-case
    ASCII letters, digits and underscores; replacing once more changes
    nothing. *)
Theorem exportNote_filename_safe {P : Platform} (note : Note.t) :
  NoteList.filename (NoteList.exportNote note)
  = NoteList.slug (Note.title note) ++ lit ".md"
  /\ List.length (NoteList.slug (Note.title note))
     = List.length (Note.title note)
  /\ Forall (fun c => Reference.isLower c || Reference.isDigit c
                      || (c =? 95)%N = true)
       (NoteList.slug (Note.title note))
  /\ NoteList.slug (NoteList.slug (Note.title note))
     = NoteList.slug (Note.title note).
Proof.
  split; [reflexivity|]. unfold NoteList.slug.
  split; [apply length_map|]. split.
  - apply Forall_forall. intros c Hc. apply in_map_iff in Hc.
    destruct Hc as (c0 & <- & _). apply (slug_unit c0).
  - rewrite map_map. apply map_ext. intros c. apply (slug_unit c).
Qed.

(** ** The editor: trimming and sentences *)

Lemma trimStart_idempotent (s : str) : trimStart (trimStart s) = trimStart s.
Proof.
  induction s as [|c s IH]; simpl; [reflexivity|].
  destruct (isWhiteSpace c) eqn:E; [exact IH|]. simpl. rewrite E. reflexivity.
Qed.

Lemma trimStart_length (s : str) :
  (List.length (trimStart s) <= List.length s)%nat.
Proof.
  induction s as [|c s IH]; simpl; [lia|].
  destruct (isWhiteSpace c); simpl; lia.
Qed.

(** What [trimStart] drops is a prefix. *)
Lemma trimStart_suffix (s : str) : exists w, s = w ++ trimStart s.
Proof.
  induction s as [|c s [w IH]]; simpl; [exists []; reflexivity|].
  destruct (isWhiteSpace c).
  - exists (c :: w). simpl. f_equal. exact IH.
  - exists []. reflexivity.
Qed.

Lemma trimEnd_prefix (s : str) : exists w, s = trimEnd s ++ w.
Proof.
  unfold trimEnd. destruct (trimStart_suffix (rev s)) as [w H].
  exists (rev w). rewrite <- rev_app_distr, <- H, rev_involutive.
  reflexivity.
Qed.

Lemma trimStart_fixed_head (c : char) (s : str) :
  trimStart (c :: s) = c :: s -> isWhiteSpace c = false.
Proof.
  simpl. destruct (isWhiteSpace c); [|reflexivity].
  intros H. pose proof (trimStart_length s) as L.
  rewrite H in L. simpl in L. lia.
Qed.

Lemma trimStart_trimEnd (t : str) :
  trimStart t = t -> trimStart (trimEnd t) = trimEnd t.
Proof.
  intros H. destruct (trimEnd_prefix t) as [w Hw].
  destruct (trimEnd t) as [|c u]; [reflexivity|].
  rewrite Hw in H. simpl in H. apply trimStart_fixed_head in H.
  simpl. rewrite H. reflexivity.
Qed.

Lemma trimEnd_idempotent (t : str) : trimEnd (trimEnd t) = trimEnd t.
Proof.
  unfold trimEnd. rewrite rev_involutive, trimStart_idempotent. reflexivity.
Qed.

Lemma trim_idempotent (s : str) : trim (trim s) = trim s.
Proof.
  unfold trim.
  rewrite trimStart_trimEnd by apply trimStart_idempotent.
  apply trimEnd_idempotent.
Qed.

Lemma trimStart_In (s : str) (x : char) : In x (trimStart s) -> In x s.
Proof.
  destruct (trimStart_suffix s) as [w H]. intros Hx.
  rewrite H. apply in_or_app. right; exact Hx.
Qed.

Lemma trim_In (s : str) (x : char) : In x (trim s) -> In x s.
Proof.
  unfold trim. intros Hx. apply trimStart_In.
  destruct (trimEnd_prefix (trimStart s)) as [w H].
  rewrite H. apply in_or_app. left; exact Hx.
Qed.

Lemma split_cons (sep : char) (s : str) :
  exists p ps, split sep s = p :: ps.
Proof.
  induction s as [|c s (p & ps & IH)]; simpl; [eauto|].
  destruct (N.eqb c sep); [eauto|]. rewrite IH. eauto.
Qed.

Lemma split_pieces (sep : char) (s p : str) :
  In p (split sep s) -> ~ In sep p.
Proof.
  revert p. induction s as [|c s IH]; simpl; intros p.
  - intros [<- | []]. tauto.
  - destruct (N.eqb c sep) eqn:E.
    + intros [<- | H]; [tauto | apply IH; exact H].
    + apply N.eqb_neq in E. destruct (split_cons sep s) as (q & qs & Hq).
      rewrite Hq in *. intros [<- | H].
      * simpl. intros [E' | H']; [congruence|].
        apply (IH q); [left; reflexivity | exact H'].
      * apply IH. right; exact H.
Qed.

Lemma split_without (sep : char) (s : str) :
  ~ In sep s -> split sep s = [s].
Proof.
  induction s as [|c s IH]; simpl; intros H; [reflexivity|].
  destruct (N.eqb c sep) eqn:E.
  - apply N.eqb_eq in E. tauto.
  - rewrite IH by tauto. reflexivity.
Qed.

Lemma split_at (sep : char) (a b : str) :
  ~ In sep a -> split sep (a ++ sep :: b) = a :: split sep b.
Proof.
  induction a as [|c a IH]; simpl; intros H.
  - rewrite N.eqb_refl. reflexivity.
  - destruct (N.eqb c sep) eqn:E.
    + apply N.eqb_eq in E. tauto.
    + rewrite IH by tauto. reflexivity.
Qed.

(** The sentences that the editor joins: not empty, trimmed, and without
    a period.  Joined with [". "], without or with a closing period, and
    after at most one space, they are read back as they are by the
    splitting, trimming and filtering of [formatContent]. *)
Lemma sentences_read_back (ps : list str) (w z : str) :
  Forall (fun p => p <> [] /\ trim p = p /\ ~ In 46%N p) ps ->
  ps <> [] ->
  w = [] \/ w = [32%N] ->
  z = [] \/ z = [46%N] ->
  List.filter truthy
    (List.map trim (split 46%N (w ++ join (lit ". ") ps ++ z)))
  = ps.
Proof.
  intros Hps. revert w. induction Hps as [|p ps (Hne & Htrim & Hdot) Hps IH].
  - intros w H. exfalso. apply H. reflexivity.
  - intros w _ Hw Hz.
    assert (Hwp : ~ In 46%N (w ++ p)).
    { intros H. apply in_app_or in H.
      destruct H as [H | H]; [|tauto].
      destruct Hw as [-> | ->]; simpl in H; [tauto|].
      destruct H as [H | []]. discriminate H. }
    assert (Htw : trim (w ++ p) = p).
    { destruct Hw as [-> | ->]; exact Htrim. }
    assert (Htp : truthy p = true) by (destruct p; [congruence|reflexivity]).
    destruct ps as [|q ps].
    + simpl join. rewrite app_assoc. destruct Hz as [-> | ->].
      * rewrite app_nil_r, split_without by exact Hwp.
        simpl. rewrite Htw, Htp. reflexivity.
      * rewrite split_at by exact Hwp.
        simpl. rewrite Htw, Htp. reflexivity.
    + change (join (lit ". ") (p :: q :: ps))
        with (p ++ 46%N :: [32%N] ++ join (lit ". ") (q :: ps)).
      replace (w ++ (p ++ 46%N :: [32%N] ++ join (lit ". ") (q :: ps)) ++ z)
        with ((w ++ p) ++ 46%N :: ([32%N] ++ join (lit ". ") (q :: ps) ++ z))
        by (rewrite <- !app_assoc; reflexivity).
      rewrite split_at by exact Hwp.
      rewrite map_cons. cbn [List.filter]. rewrite Htw, Htp.
      f_equal. apply IH; [discriminate | right; reflexivity | exact Hz].
Qed.

(** The pieces kept by [formatContent] and by [onresult] are such
    sentences. *)
Lemma trimmed_pieces (s : str) :
  Forall (fun p => p <> [] /\ trim p = p /\ ~ In 46%N p)
    (List.filter truthy (List.map trim (split 46%N s))).
Proof.
  apply Forall_forall. intros p Hp. apply filter_In in Hp.
  destruct Hp as [Hp Ht]. apply in_map_iff in Hp.
  destruct Hp as (q & <- & Hq). split; [|split].
  - intros E. rewrite E in Ht. discriminate Ht.
  - apply trim_idempotent.
  - intros H. apply trim_In in H. exact (split_pieces _ _ _ Hq H).
Qed.

Lemma cleanContent_join (ps : list str) (z : str) :
  Forall (fun p => p <> [] /\ trim p = p /\ ~ In 46%N p) ps ->
  z = [] \/ z = [46%N] ->
  NoteEditor.cleanContent (join (lit ". ") ps ++ z) = join (lit ". ") ps.
Proof.
  intros Hps Hz. unfold NoteEditor.cleanContent.
  destruct ps as [|p ps].
  - destruct Hz as [-> | ->]; reflexivity.
  - pose proof (sentences_read_back (p :: ps) [] z Hps) as H.
    rewrite app_nil_l in H. f_equal. apply H; auto. discriminate.
Qed.

(** A second blur changes nothing: formatting the content is
    idempotent, on the whole state of the editor. *)
Theorem formatContent_idempotent (st : NoteEditor.State) :
  NoteEditor.formatContent (NoteEditor.formatContent st)
  = NoteEditor.formatContent st.
Proof.
  unfold NoteEditor.formatContent, NoteEditor.setFormData,
    NoteEditor.withContent. simpl. do 3 f_equal.
  unfold NoteEditor.cleanContent at 2.
  apply cleanContent_join; [|right; reflexivity].
  apply trimmed_pieces.
Qed.

Lemma dedupe_NoDup (l : list str) : NoDup (Spec.dedupe l).
Proof.
  induction l as [|x l IH]; simpl; constructor.
  - intros H. apply filter_In in H. destruct H as [_ H].
    rewrite str_eqb_refl in H. discriminate H.
  - apply NoDup_filter. exact IH.
Qed.

Lemma dedupe_In_iff (l : list str) (y : str) :
  In y (Spec.dedupe l) <-> In y l.
Proof.
  split; [apply dedupe_In|].
  induction l as [|x l IH]; simpl; [tauto|].
  intros [-> | H]; [left; reflexivity|].
  destruct (str_eqb y x) eqn:E.
  - apply str_eqb_eq in E. left. congruence.
  - right. apply filter_In. rewrite E. split; [apply IH; exact H|reflexivity].
Qed.

(** The sentences that the transcript handler keeps. *)
Lemma kept_sentences (l : str) :
  Forall (fun p => p <> [] /\ trim p = p /\ ~ In 46%N p)
    (filter_idx NoteEditor.firstOccurrence
       (List.map trim (split 46%N l))).
Proof.
  rewrite filter_idx_dedupe, dropEmpty_filter.
  apply Forall_forall. intros p Hp. apply dedupe_In in Hp.
  pose proof (trimmed_pieces l) as H.
  rewrite Forall_forall in H. apply H. exact Hp.
Qed.

Lemma cleanedTranscript_read_back
    (results : list NoteEditor.SpeechRecognitionResult) :
  List.filter truthy
    (List.map trim (split 46%N (NoteEditor.cleanedTranscript results)))
  = filter_idx NoteEditor.firstOccurrence
      (List.map trim
         (split 46%N
            (join (lit " ")
               (List.map
                  (fun r => NoteEditor.transcript (NoteEditor.item0 r))
                  results)))).
Proof.
  unfold NoteEditor.cleanedTranscript.
  pose proof (kept_sentences
                (join (lit " ")
                   (List.map
                      (fun r => NoteEditor.transcript (NoteEditor.item0 r))
                      results))) as H.
  destruct (filter_idx _ _) as [|p ps] eqn:E; [reflexivity|].
  pose proof (sentences_read_back (p :: ps) [] [] H) as R.
  rewrite app_nil_l, app_nil_r in R. apply R; auto. discriminate.
Qed.

(** The content that the transcript handler writes, read sentence by
    sentence (split on periods, trimmed, empty pieces dropped), never
    repeats a sentence, and its sentences are exactly the non-empty
    trimmed sentences of the raw transcript. *)
Theorem transcript_sentences_distinct
    (results : list NoteEditor.SpeechRecognitionResult) :
  NoDup (List.filter truthy
           (List.map trim
              (split 46%N (NoteEditor.cleanedTranscript results))))
  /\ forall s,
       In s (List.filter truthy
               (List.map trim
                  (split 46%N (NoteEditor.cleanedTranscript results))))
       <-> s <> []
           /\ In s (List.map trim
                      (split 46%N
                         (join (lit " ")
                            (List.map
                               (fun r =>
                                  NoteEditor.transcript (NoteEditor.item0 r))
                               results)))).
Proof.
  rewrite cleanedTranscript_read_back, filter_idx_dedupe. split.
  - apply dedupe_NoDup.
  - intros s. rewrite dedupe_In_iff, dropEmpty_filter, filter_In.
    rewrite <- truthy_false. destruct (truthy s); intuition congruence.
Qed.

(** Leaving the text area after a dictation only closes the transcript
    with a period: the sentences of the transcript are already in the
    form that the blur handler produces. *)
Theorem blur_after_dictation
    (results : list NoteEditor.SpeechRecognitionResult)
    (st : NoteEditor.State) :
  NoteFormData.content
    (NoteEditor.formData
       (NoteEditor.formatContent (NoteEditor.onresult results st)))
  = NoteEditor.cleanedTranscript results ++ lit ".".
Proof.
  simpl. f_equal. unfold NoteEditor.cleanedTranscript.
  pose proof (cleanContent_join _ [] (kept_sentences
                (join (lit " ")
                   (List.map
                      (fun r => NoteEditor.transcript (NoteEditor.item0 r))
                      results)))) as H.
  rewrite app_nil_r in H. apply H. left; reflexivity.
Qed.

(** ** The editor: tags of the draft *)

Lemma NoDup_snoc {A : Type} (l : list A) (x : A) :
  NoDup l -> ~ In x l -> NoDup (l ++ [x]).
Proof.
  intros Hl Hx. apply (Permutation_NoDup (l := x :: l)).
  - apply Permutation_cons_append.
  - constructor; assumption.
Qed.

(** The tags of a draft stay pairwise distinct, non-empty and trimmed
    under [addTag], whatever the key, and under [removeTag]; the fresh
    draft has such tags. *)
Theorem draft_tags_wellformed (st : NoteEditor.State) :
  NoDup (NoteFormData.tags (NoteEditor.formData st)) ->
  Forall (fun t => t <> [] /\ trim t = t)
    (NoteFormData.tags (NoteEditor.formData st)) ->
  (forall key,
     NoDup (NoteFormData.tags
              (NoteEditor.formData (NoteEditor.addTag key st)))
     /\ Forall (fun t => t <> [] /\ trim t = t)
          (NoteFormData.tags
             (NoteEditor.formData (NoteEditor.addTag key st))))
  /\ (forall tag,
        NoDup (NoteFormData.tags
                 (NoteEditor.formData (NoteEditor.removeTag tag st)))
        /\ Forall (fun t => t <> [] /\ trim t = t)
             (NoteFormData.tags
                (NoteEditor.formData (NoteEditor.removeTag tag st))))
  /\ (forall today,
        NoDup (NoteFormData.tags (NoteEditor.template today))
        /\ Forall (fun t => t <> [] /\ trim t = t)
             (NoteFormData.tags (NoteEditor.template today))).
Proof.
  intros Hnd Hwf. split; [|split].
  - intros key. unfold NoteEditor.addTag.
    destruct (str_eqb key (lit "Enter")
              && truthy (trim (NoteEditor.newTag st))) eqn:E;
      [|split; assumption].
    apply andb_true_iff in E. destruct E as [_ Ht].
    destruct (arr_includes _ _) eqn:Ei; simpl; [split; assumption|].
    apply arr_includes_not_In in Ei. split.
    + apply NoDup_snoc; assumption.
    + apply Forall_app. split; [exact Hwf|]. constructor; [|constructor].
      split; [|apply trim_idempotent].
      intros E0. rewrite E0 in Ht. discriminate Ht.
  - intros tag. simpl. split.
    + apply NoDup_filter. exact Hnd.
    + apply Forall_forall. intros t Ht. apply filter_In in Ht.
      rewrite Forall_forall in Hwf. apply Hwf. tauto.
  - intros today. simpl. split.
    + constructor; [intros [] | constructor].
    + constructor; [|constructor]. split; [discriminate | reflexivity].
Qed.

Lemma draft_tags_wellformed_witness :
  NoDup (NoteFormData.tags
           (NoteEditor.formData
              (NoteEditor.addTag (lit "Enter")
                 (NoteEditor.setNewTag (lit " team ")
                    (NoteEditor.setFormData Examples.blank_draft
                       NoteEditor.initial))))).
Proof.
  refine (proj1 (proj1 (draft_tags_wellformed
                          (NoteEditor.setNewTag (lit " team ")
                             (NoteEditor.setFormData Examples.blank_draft
                                NoteEditor.initial)) _ _)
                   (lit "Enter"))).
  - simpl. constructor; [intros [] | constructor].
  - simpl. constructor; [|constructor]. split; [discriminate | reflexivity].
Defined.

(** Confirming with Enter a new tag that is not blank and not yet among
    the tags appends its trimmed text as the last tag and empties the
    input; removing that tag afterwards restores the draft.  After a
    removal the tag is gone, and with any other key the editor is left as
    it is. *)
Theorem addTag_then_removeTag (st : NoteEditor.State) :
  trim (NoteEditor.newTag st) <> [] ->
  ~ In (trim (NoteEditor.newTag st))
       (NoteFormData.tags (NoteEditor.formData st)) ->
  NoteFormData.tags
    (NoteEditor.formData (NoteEditor.addTag (lit "Enter") st))
  = NoteFormData.tags (NoteEditor.formData st)
    ++ [trim (NoteEditor.newTag st)]
  /\ NoteEditor.newTag (NoteEditor.addTag (lit "Enter") st) = []
  /\ NoteEditor.formData
       (NoteEditor.removeTag (trim (NoteEditor.newTag st))
          (NoteEditor.addTag (lit "Enter") st))
     = NoteEditor.formData st
  /\ (forall tag st',
        ~ In tag (NoteFormData.tags
                    (NoteEditor.formData (NoteEditor.removeTag tag st'))))
  /\ (forall key, key <> lit "Enter" -> NoteEditor.addTag key st = st).
Proof.
  intros Hne Hnew.
  assert (Ht : truthy (trim (NoteEditor.newTag st)) = true).
  { destruct (trim (NoteEditor.newTag st)); [congruence | reflexivity]. }
  assert (Hi : arr_includes (NoteFormData.tags (NoteEditor.formData st))
                 (trim (NoteEditor.newTag st)) = false).
  { apply arr_includes_not_In. exact Hnew. }
  assert (Hadd : NoteEditor.addTag (lit "Enter") st
                 = NoteEditor.setNewTag []
                     (NoteEditor.setFormData
                        (NoteEditor.withTags
                           (NoteFormData.tags (NoteEditor.formData st)
                            ++ [trim (NoteEditor.newTag st)])
                           (NoteEditor.formData st)) st)).
  { unfold NoteEditor.addTag. rewrite str_eqb_refl, Ht, Hi. reflexivity. }
  split; [|split; [|split; [|split]]].
  - rewrite Hadd. reflexivity.
  - rewrite Hadd. reflexivity.
  - rewrite Hadd. simpl. rewrite filter_app. simpl.
    rewrite str_eqb_refl. simpl. rewrite app_nil_r.
    rewrite filter_keeps_all.
    + destruct (NoteEditor.formData st); reflexivity.
    + intros t Hin. apply negb_true_iff, str_eqb_neq. congruence.
  - intros tag st' H. simpl in H. apply filter_In in H.
    destruct H as [_ H]. rewrite str_eqb_refl in H. discriminate H.
  - intros key Hkey. unfold NoteEditor.addTag.
    apply str_eqb_neq in Hkey. rewrite Hkey. reflexivity.
Qed.

Lemma addTag_then_removeTag_witness :
  NoteFormData.tags
    (NoteEditor.formData
       (NoteEditor.addTag (lit "Enter")
          (NoteEditor.setNewTag (lit " team ")
             (NoteEditor.setFormData Examples.blank_draft
                NoteEditor.initial))))
  = [lit "meeting"; lit "team"].
Proof.
  refine (proj1 (addTag_then_removeTag
                   (NoteEditor.setNewTag (lit " team ")
                      (NoteEditor.setFormData Examples.blank_draft
                         NoteEditor.initial)) _ _)).
  - vm_compute. discriminate.
  - vm_compute. intros [E | []]. discriminate E.
Defined.

(** ** The editor: recording controls *)

(** Recording is switched on only by a toggle while it is off, with the
    recognizer present, the microphone granted (already, or at the
    prompt) and a start that succeeds; a toggle while it is on switches
    it off; without the recognizer the toggle only raises the message
    that speech recognition is not supported.  A recognizer error always
    switches recording off, with a message exactly for the error
    [not-allowed].  None of the two touches the draft. *)
Theorem recording_controls (mic : NoteEditor.Microphone) (start_ok : bool)
    (error : str) (st : NoteEditor.State) :
  (NoteEditor.isRecording
     (fst (NoteEditor.toggleRecording true mic start_ok st)) = true
   <-> NoteEditor.isRecording st = false
       /\ start_ok = true
       /\ (NoteEditor.query mic = Some NoteEditor.granted
           \/ (NoteEditor.query mic = Some NoteEditor.prompt
               /\ NoteEditor.getUserMedia mic = true)))
  /\ NoteEditor.toggleRecording false mic start_ok st
     = (st, [NoteEditor.not_supported_alert])
  /\ NoteEditor.formData
       (fst (NoteEditor.toggleRecording true mic start_ok st))
     = NoteEditor.formData st
  /\ NoteEditor.isRecording (fst (NoteEditor.onerror error st)) = false
  /\ NoteEditor.formData (fst (NoteEditor.onerror error st))
     = NoteEditor.formData st
  /\ (snd (NoteEditor.onerror error st) <> []
      <-> error = lit "not-allowed").
Proof.
  destruct mic as [[[| |]|] media]; destruct media, start_ok;
    destruct st as [[|] fd nt];
    (split; [|split; [reflexivity|split; [reflexivity|split;
       [reflexivity|split; [reflexivity|]]]]]);
    try (unfold NoteEditor.onerror; simpl;
         destruct (str_eqb error (lit "not-allowed")) eqn:E;
         [apply str_eqb_eq in E | apply str_eqb_neq in E];
         simpl; split; intros; congruence);
    simpl; split; intros H; try discriminate H;
    try (repeat split; auto; fail);
    try (destruct H as (H1 & H2 & [H3 | [H3 H4]]); discriminate);
    auto.
Qed.

(** ** Submitting the form *)

Lemma handleSubmit_accepts {P : Platform} {Parent : Type}
    (onSave : NoteFormData.t -> Parent -> Parent) (onClear : Parent -> Parent)
    (now : Z) (ps : Parent * NoteEditor.State) :
  trim (NoteFormData.title (NoteEditor.formData (snd ps))) <> [] ->
  trim (NoteFormData.content (NoteEditor.formData (snd ps))) <> [] ->
  NoteEditor.handleSubmit onSave onClear now ps
  = ((onClear (onSave (NoteEditor.formData (snd ps)) (fst ps)),
      NoteEditor.setFormData (NoteEditor.template (toLongDate now)) (snd ps)),
     None).
Proof.
  intros Ht Hc. unfold NoteEditor.handleSubmit.
  destruct (trim (NoteFormData.title (NoteEditor.formData (snd ps))));
    [congruence|].
  destruct (trim (NoteFormData.content (NoteEditor.formData (snd ps))));
    [congruence|].
  reflexivity.
Qed.

(** A submit with nothing selected and a title and a content that are not
    blank raises no message, puts one new note in front of the collection
    and resets the draft to the template.  The note holds the title and
    the content as typed, untrimmed, and the tag [meeting] before the
    tags of the draft; the notes already stored are untouched. *)
Theorem submit_creates {P : Platform} (app : App.State)
    (ed : NoteEditor.State) (uuid : str) (t_created t_updated t_clear : Z) :
  App.selectedNote app = None ->
  trim (NoteFormData.title (NoteEditor.formData ed)) <> [] ->
  trim (NoteFormData.content (NoteEditor.formData ed)) <> [] ->
  Root.submit uuid t_created t_updated t_clear (app, ed)
  = (({| App.notes :=
           {| Note.id := uuid;
              Note.title := NoteFormData.title (NoteEditor.formData ed);
              Note.content := NoteFormData.content (NoteEditor.formData ed);
              Note.createdAt := DateObj t_created;
              Note.updatedAt := DateObj t_updated;
              Note.favorite := false;
              Note.tags :=
                lit "meeting" :: NoteFormData.tags (NoteEditor.formData ed)
           |} :: App.notes app;
         App.selectedNote := None |},
      NoteEditor.setFormData (NoteEditor.template (toLongDate t_clear)) ed),
     None).
Proof.
  intros Hsel Ht Hc. unfold Root.submit.
  rewrite handleSubmit_accepts by assumption. simpl.
  unfold App.handleSaveNote. rewrite Hsel. reflexivity.
Qed.

Lemma submit_creates_witness :
  snd (Root.submit (P := Reference.ref_platform) (lit "n-3") 1 2 3
         (Examples.two_notes,
          NoteEditor.onContentChange (lit "Done.")
            (snd Examples.blank_state)))
  = None.
Proof.
  refine (f_equal snd
            (submit_creates (P := Reference.ref_platform) Examples.two_notes
               (NoteEditor.onContentChange (lit "Done.")
                  (snd Examples.blank_state))
               (lit "n-3") 1 2 3 eq_refl _ _));
    vm_compute; discriminate.
Defined.

(** Selecting a stored note and submitting the form without editing it
    changes nothing but the update time of that note: in a collection with
    pairwise distinct ids every other note, and every other field of the
    note, is as before.  The selection is cleared and the draft is reset
    to the template. *)
Theorem resubmit_selected_note {P : Platform} (app : App.State)
    (ed : NoteEditor.State) (n : Note.t) (uuid : str)
    (t_select t_created t_updated t_clear : Z) :
  NoDup (List.map Note.id (App.notes app)) ->
  In n (App.notes app) ->
  trim (Note.title n) <> [] ->
  trim (Note.content n) <> [] ->
  Root.submit uuid t_created t_updated t_clear
    (App.setSelectedNote (Some n) app,
     NoteEditor.onSelectedNote (Some n) t_select ed)
  = (({| App.notes :=
           List.map (fun m =>
                  if str_eqb (Note.id m) (Note.id n)
                  then {| Note.id := Note.id m;
                          Note.title := Note.title m;
                          Note.content := Note.content m;
                          Note.createdAt := Note.createdAt m;
                          Note.updatedAt := DateObj t_created;
                          Note.favorite := Note.favorite m;
                          Note.tags := Note.tags m |}
                  else m) (App.notes app);
         App.selectedNote := None |},
      NoteEditor.setFormData (NoteEditor.template (toLongDate t_clear)) ed),
     None).
Proof.
  intros Hnd Hin Ht Hc. unfold Root.submit.
  rewrite handleSubmit_accepts by (simpl; assumption).
  simpl. unfold App.handleSaveNote, App.setSelectedNote. simpl.
  do 3 f_equal. apply map_ext_in. intros m Hm.
  destruct (str_eqb (Note.id m) (Note.id n)) eqn:E; [|reflexivity].
  apply str_eqb_eq in E.
  rewrite (NoDup_map_inj Note.id (App.notes app) m n Hnd Hm Hin E).
  reflexivity.
Qed.

Lemma resubmit_selected_note_witness :
  snd (Root.submit (P := Reference.ref_platform) (lit "u-1") 1 2 3
         (App.setSelectedNote (Some Examples.retro) Examples.two_notes,
          NoteEditor.onSelectedNote (P := Reference.ref_platform)
            (Some Examples.retro) 0 NoteEditor.initial))
  = None.
Proof.
  refine (f_equal snd
            (resubmit_selected_note (P := Reference.ref_platform)
               Examples.two_notes NoteEditor.initial Examples.retro
               (lit "u-1") 0 1 2 3 _ _ _ _)).
  - simpl. constructor.
    + intros [E | []]. vm_compute in E. discriminate E.
    + constructor; [intros [] | constructor].
  - right; left; reflexivity.
  - vm_compute. discriminate.
  - vm_compute. discriminate.
Defined.

